(** * https_dns_proxy: the orchestration in [src/main.c]

    [main.c] wires a UDP DNS server, an HTTPS client and a bootstrap DNS
    poller onto one libev loop.  Three callbacks carry all of its logic:

    - [dns_server_cb]  builds the JSON-API URL for a decoded query, allocates
      a [request_t] and hands both to [https_client_fetch];
    - [https_resp_cb]  receives the body (or NULL), converts it with
      [json_to_dns] and answers over UDP;
    - [dns_poll_cb]    replaces the [curl_slist] that pins the address of
      dns.google.com.

    The embedding keeps the callbacks as functions on an explicit process
    state: the two heaps the callbacks allocate from and free into
    ([request_t] blocks and [curl_slist] lists), the outstanding fetches,
    and the traces of the calls made to the collaborators (fetches issued,
    UDP replies, log lines).  The event loop is a fold of [step] over the
    events libev delivers.

    C strings are [string] without the terminating NUL; [uint16_t] and [int]
    values are [Z]; byte buffers are [list byte]; pointers are [positive]
    with NULL as [None], and an allocation returns a block that is not live.
    Allocations whose result the source does not test ([calloc] in
    [dns_server_cb], [curl_escape], [curl_slist_append]) succeed; the one it
    does test, the body copy of [https_resp_cb], may fail.

    [main.c] is the only source file at hand.  [json_to_dns] is a parameter
    of the development; [https_client_fetch], the poller
    ([dns_poller_init], [dns_poller_timer]) and [FLOG] are modelled from
    the specification, each where it is defined; libcurl and c-ares
    helpers follow their manuals. *)

From Stdlib Require Import ZArith NArith String Ascii List Lia.
From Stdlib Require Import Strings.Byte DecimalString DecimalFacts DecimalPos.
From stdpp Require Import gmap strings list.

Local Open Scope Z_scope.

(** ** C strings *)

(** The first [n] characters of [s]: what a bounded write keeps. *)
Fixpoint string_take (n : nat) (s : string) : string :=
  match n, s with
  | S n', String c s' => String c (string_take n' s')
  | _, _ => EmptyString
  end.

Fixpoint string_forallb (p : ascii -> bool) (s : string) : bool :=
  match s with
  | EmptyString => true
  | String c s' => p c && string_forallb p s'
  end.

(** [prefixb p s]: [s] starts with [p]. *)
Fixpoint prefixb (p s : string) : bool :=
  match p, s with
  | EmptyString, _ => true
  | String a p', String b s' => Ascii.eqb a b && prefixb p' s'
  | String _ _, EmptyString => false
  end.

(** [containsb p s]: [p] occurs in [s] as a substring. *)
Fixpoint containsb (p s : string) : bool :=
  prefixb p s ||
  match s with
  | EmptyString => false
  | String _ s' => containsb p s'
  end.

Definition not_amp (x : ascii) : bool := negb (Ascii.eqb x "&").

(** [snprintf(dst, size, ...)] stores at most [size - 1] characters of the
    formatted text and a NUL. *)
Definition snprintf (size : nat) (formatted : string) : string :=
  string_take (size - 1) formatted.

(** [%d] of an [int] and [%u] of an octet. *)
Definition fmt_d (n : Z) : string := NilZero.string_of_int (Z.to_int n).
Definition fmt_u (n : N) : string := NilZero.string_of_uint (N.to_uint n).

(** ** libcurl and c-ares helpers used by [main.c] *)

Definition is_alnum (c : ascii) : bool :=
  let n := N_of_ascii c in
  ((48 <=? n) && (n <=? 57) || (65 <=? n) && (n <=? 90)
   || (97 <=? n) && (n <=? 122))%N.

(** RFC 3986 unreserved characters, the ones [curl_escape] leaves alone. *)
Definition is_unreserved (c : ascii) : bool :=
  is_alnum c ||
  Ascii.eqb c "-" || Ascii.eqb c "." || Ascii.eqb c "_" || Ascii.eqb c "~".

Definition hex_digit (n : N) : ascii :=
  ascii_of_N (if (n <? 10)%N then 48 + n else 55 + n)%N.

(** [curl_escape(name, strlen(name))]: every character that is not
    unreserved becomes [%XX], upper-case hexadecimal. *)
Fixpoint curl_escape (s : string) : string :=
  match s with
  | EmptyString => EmptyString
  | String c s' =>
      if is_unreserved c then String c (curl_escape s')
      else String "%" (String (hex_digit (N_of_ascii c / 16))
                      (String (hex_digit (N_of_ascii c mod 16))
                         (curl_escape s')))
  end.

Definition hex_value (c : ascii) : N :=
  let n := N_of_ascii c in
  (if (48 <=? n) && (n <=? 57) then n - 48
   else if (65 <=? n) && (n <=? 70) then n - 55
   else if (97 <=? n) && (n <=? 102) then n - 87
   else 0)%N.

(** URL unescaping, the inverse the server applies to the [name]
    parameter: [%XX] becomes the character with code [XX]. *)
Fixpoint percent_decode (s : string) : string :=
  match s with
  | EmptyString => EmptyString
  | String c s' =>
      if Ascii.eqb c "%" then
        match s' with
        | String h (String l s'') =>
            String (ascii_of_N (16 * hex_value h + hex_value l))
              (percent_decode s'')
        | _ => String c (percent_decode s')
        end
      else String c (percent_decode s')
  end.

(** The four octets [ares_inet_ntop(AF_INET, addr, ...)] reads at [addr]. *)
Record in_addr := { oct1 : byte; oct2 : byte; oct3 : byte; oct4 : byte }.

Definition dotted_quad (a : in_addr) : string :=
  fmt_u (Byte.to_N (oct1 a)) +:+ "." +:+ fmt_u (Byte.to_N (oct2 a)) +:+ "."
  +:+ fmt_u (Byte.to_N (oct3 a)) +:+ "." +:+ fmt_u (Byte.to_N (oct4 a)).

(** [ares_inet_ntop(AF_INET, src, dst, size)] writes the dotted quad and its
    NUL into [dst] when they fit in [size] bytes, and leaves [dst] alone
    otherwise. *)
Definition ares_inet_ntop (src : in_addr) (size : Z) : string :=
  let text := dotted_quad src in
  if Z.of_nat (String.length text) <? size then text else EmptyString.

(** ** Data of [main.c] *)

Definition ptr := positive.

(** The client's address, which [main.c] only copies around. *)
Record sockaddr_in := { sin_addr : Z; sin_port : Z }.

Record request_t := {
  tx_id : Z;              (* uint16_t *)
  raddr : sockaddr_in;
  dns_server : ptr        (* dns_server_t * *)
}.

(** [resolv] is the head of a [curl_slist] or NULL. *)
Record app_state_t := {
  https_client : ptr;
  resolv : option ptr;
  extra_request_args : string
}.

(** The fields of [struct Options] that [main] reads. *)
Record Options := {
  logfd : Z;
  loglevel : Z;
  listen_addr : string;
  listen_port : Z;
  daemonize : bool;
  uid : Z;
  gid : Z;
  bootstrap_dns : string;
  http_dns_server : string;
  edns_client_subnet : string
}.

(** What [main] passes to [dns_poller_init]; the callback is [dns_poll_cb]
    and its data is [&app.resolv]. *)
Record dns_poller_t := {
  poll_bootstrap_dns : string;
  poll_hostname : string;
  poll_interval : Z
}.

Inductive severity := LOG_DEBUG | LOG_INFO | LOG_ERROR | LOG_FATAL.

(** One call of [https_client_fetch]: the URL, the [resolv] pointer and the
    context pointer as passed, and [f_pinned], the list [f_resolv] points to
    when the call is made. *)
Record fetch := {
  f_url : string;
  f_resolv : option ptr;
  f_pinned : option (list string);
  f_data : option ptr
}.

(** One call of [dns_server_respond]. *)
Record reply := {
  r_server : ptr;
  r_addr : sockaddr_in;
  r_bytes : list byte
}.

(** The process while the loop runs. *)
Record state := {
  app : app_state_t;
  dns_poller : dns_poller_t;
  requests : gmap ptr request_t;        (* live [request_t] blocks *)
  slists : gmap ptr (list string);      (* live [curl_slist] lists *)
  inflight : gmap nat fetch;            (* fetches awaiting their callback *)
  next_handle : nat;
  fetched : list fetch;                 (* calls of [https_client_fetch] *)
  sent : list reply;                    (* calls of [dns_server_respond] *)
  log : list (severity * string)        (* logging calls, format strings *)
}.

Inductive outcome :=
  | Running (w : state)                 (* back in the event loop *)
  | Exited (code : Z) (w : state)       (* [exit] or return from [main] *)
  | Fatal (w : state)                   (* terminated by [FLOG] *)
  | Undefined.                          (* behaviour C leaves undefined *)

Definition set_app (a : app_state_t) (w : state) : state :=
  {| app := a; dns_poller := dns_poller w; requests := requests w;
     slists := slists w; inflight := inflight w;
     next_handle := next_handle w; fetched := fetched w; sent := sent w;
     log := log w |}.

Definition set_requests (m : gmap ptr request_t) (w : state) : state :=
  {| app := app w; dns_poller := dns_poller w; requests := m;
     slists := slists w; inflight := inflight w;
     next_handle := next_handle w; fetched := fetched w; sent := sent w;
     log := log w |}.

Definition set_slists (m : gmap ptr (list string)) (w : state) : state :=
  {| app := app w; dns_poller := dns_poller w; requests := requests w;
     slists := m; inflight := inflight w;
     next_handle := next_handle w; fetched := fetched w; sent := sent w;
     log := log w |}.

Definition set_inflight (m : gmap nat fetch) (w : state) : state :=
  {| app := app w; dns_poller := dns_poller w; requests := requests w;
     slists := slists w; inflight := m;
     next_handle := next_handle w; fetched := fetched w; sent := sent w;
     log := log w |}.

Definition log_line (sev : severity) (fmt : string) (w : state) : state :=
  {| app := app w; dns_poller := dns_poller w; requests := requests w;
     slists := slists w; inflight := inflight w;
     next_handle := next_handle w; fetched := fetched w; sent := sent w;
     log := log w ++ [(sev, fmt)] |}.

Definition DLOG : string -> state -> state := log_line LOG_DEBUG.
Definition ELOG : string -> state -> state := log_line LOG_ERROR.

(** Modelled from the spec: [logging.h] is not among the sources.  [FLOG]
    is its fatal level; section 7 has fatal errors abort the process
    immediately with a descriptive message. *)
Definition FLOG (fmt : string) (w : state) : outcome :=
  Fatal (log_line LOG_FATAL fmt w).

(** [dns_server_respond(dns_server, raddr, obuf, r)]: one datagram out. *)
Definition dns_server_respond (srv : ptr) (to : sockaddr_in)
    (bytes : list byte) (w : state) : state :=
  {| app := app w; dns_poller := dns_poller w; requests := requests w;
     slists := slists w; inflight := inflight w;
     next_handle := next_handle w; fetched := fetched w;
     sent := sent w ++ [{| r_server := srv; r_addr := to; r_bytes := bytes |}];
     log := log w |}.

(** Modelled from the spec: [https_client.c] is not among the sources.
    Section 4.2 has [fetch] issue one non-blocking GET and call back exactly
    once with the context unchanged; section 3 has the resolver override
    read by the dispatcher at the moment each request is issued.  The fetch
    gets a fresh handle and is recorded with the list its [resolv] argument
    points to at that moment. *)
Definition https_client_fetch (url : string) (rsv : option ptr)
    (data : option ptr) (w : state) : state :=
  let f := {| f_url := url; f_resolv := rsv;
              f_pinned := match rsv with
                          | Some q => slists w !! q
                          | None => None
                          end;
              f_data := data |} in
  {| app := app w; dns_poller := dns_poller w; requests := requests w;
     slists := slists w; inflight := <[next_handle w := f]> (inflight w);
     next_handle := S (next_handle w); fetched := fetched w ++ [f];
     sent := sent w; log := log w |}.

(** [curl_slist_free_all(list)]; a no-op on NULL. *)
Definition curl_slist_free_all (l : option ptr)
    (m : gmap ptr (list string)) : gmap ptr (list string) :=
  match l with
  | Some q => delete q m
  | None => m
  end.

(** ** The callbacks *)

(** The text of the format ["https://dns.google.com/resolve?name=%s&type=%d%s%s"]
    for the four arguments [dns_server_cb] passes. *)
Definition url_format (escaped_name : string) (type cd_bit : Z)
    (extra : string) : string :=
  "https://dns.google.com/resolve?name=" +:+ escaped_name +:+ "&type="
  +:+ fmt_d type +:+ (if negb (cd_bit =? 0) then "&cd=true" else "")
  +:+ extra.

(** What [dns_server_cb] leaves in [char url[1500]]. *)
Definition build_url (name : string) (type flags : Z) (extra : string)
  : string :=
  let cd_bit := Z.land flags (Z.shiftl 1 4) in
  let escaped_name := curl_escape name in
  snprintf (1500 - 1) (url_format escaped_name type cd_bit extra).

(** The source writes through the result of [calloc] without testing it;
    the block is taken to be allocated. *)
Definition dns_server_cb (srv : ptr) (addr : sockaddr_in)
    (txid flags : Z) (name : string) (type : Z) (w : state) : state :=
  let w :=
    DLOG "Received request for '%s' id: %04x, type %d, flags %04x" w in
  let url := build_url name type flags (extra_request_args (app w)) in
  let p := fresh (dom (requests w)) in
  let req := {| tx_id := txid; raddr := addr; dns_server := srv |} in
  let w := set_requests (<[p := req]> (requests w)) w in
  https_client_fetch url (resolv (app w)) (Some p) w.

Definition dns_poll_cb (addr : in_addr) (w : state) : state :=
  let buf := "dns.google.com:443:" +:+ ares_inet_ntop addr (128 - 19) in
  let w := DLOG "Received new IP '%s'" w in
  let freed := curl_slist_free_all (resolv (app w)) (slists w) in
  let q := fresh (dom freed) in
  set_app {| https_client := https_client (app w); resolv := Some q;
             extra_request_args := extra_request_args (app w) |}
    (set_slists (<[q := [buf]]> freed) w).

Definition sigpipe_cb (w : state) : state :=
  ELOG "Received SIGPIPE. Ignoring." w.

(** A stand-in for the converter, to run the callbacks on concrete input:
    it answers a body that opens with a brace by a bare twelve-byte header
    carrying the transaction id, and rejects every other body. *)
Definition byte_of_Z (z : Z) : byte :=
  match Byte.of_N (Z.to_N (z mod 256)) with
  | Some b => b
  | None => x00
  end.

Definition header_only_converter (txid : Z) (json : list byte) (olen : Z)
  : Z * list byte :=
  match json with
  | "{"%byte :: _ =>
      if 12 <=? olen
      then (12, [byte_of_Z (txid / 256); byte_of_Z txid; x81; x80;
                 x00; x00; x00; x00; x00; x00; x00; x00])
      else (0, [])
  | _ => (-1, [])
  end.

(** Modelled from the spec: the wire codec is not among the sources.  A DNS
    message opens with the 16-bit transaction id, high octet first. *)
Definition wire_tx_id (pkt : list byte) : option Z :=
  match pkt with
  | hi :: lo :: _ => Some (256 * Z.of_N (Byte.to_N hi) + Z.of_N (Byte.to_N lo))
  | _ => None
  end.

(** ** [main]: start-up, the loop, shutdown *)

(** What the environment answers during start-up. *)
Record startup_env := {
  parse_args_rc : Z;      (* options_parse_args *)
  setgid_rc : Z;
  setuid_rc : Z
}.

Inductive startup :=
  | Usage                            (* options_show_usage; exit(1) *)
  | StartupFatal (msg : string)      (* FLOG before the loop starts *)
  | Started (w : state).             (* ev_run entered *)

(** Modelled from the spec: [dns_poller.c] is not among the sources.
    Section 4.3 has the poller resolve the given hostname on a fixed period
    through a resolver configured with the given bootstrap nameserver. *)
Definition dns_poller_init (bootstrap_dns hostname : string)
    (interval_seconds : Z) : dns_poller_t :=
  {| poll_bootstrap_dns := bootstrap_dns; poll_hostname := hostname;
     poll_interval := interval_seconds |}.

Inductive resolver := SystemDefault | Nameserver (address : string).

(** One resolution the poller starts: through which resolver, of which
    hostname, and how many seconds after its first one. *)
Record lookup := {
  lk_after_first : Z;
  lk_resolver : resolver;
  lk_hostname : string
}.

(** Modelled from the spec: [dns_poller.c] is not among the sources.
    Section 4.3 has the poller, on a fixed period, resolve the hostname it
    was given through a resolver configured with the bootstrap nameserver
    it was given, never the system default, and keep to that schedule
    whatever the outcome.  Each expiry of its timer starts one resolution;
    [expiries] counts the earlier ones. *)
Definition dns_poller_timer (p : dns_poller_t) (expiries : nat) : lookup :=
  {| lk_after_first := Z.of_nat expiries * poll_interval p;
     lk_resolver := Nameserver (poll_bootstrap_dns p);
     lk_hostname := poll_hostname p |}.

(** [app.extra_request_args] as [main] sets it from the options. *)
Definition edns_args (opt : Options) : string :=
  match edns_client_subnet opt with
  | String _ _ =>
      snprintf (200 - 1) ("&edns_client_subnet=" +:+ edns_client_subnet opt)
  | EmptyString => EmptyString
  end.

(** The process as [main] has set it up when it calls [ev_run]. *)
Definition loop_entry (opt : Options) : state :=
  {| app := {| https_client := 1%positive; resolv := None;
               extra_request_args := edns_args opt |};
     dns_poller := dns_poller_init (bootstrap_dns opt)
                     (http_dns_server opt) 120 (* seconds *);
     requests := ∅; slists := ∅; inflight := ∅; next_handle := O;
     fetched := []; sent := [];
     log := [(LOG_INFO, "System c-ares: %s");
             (LOG_INFO, "System libcurl: %s")] |}.

(** The exits [main] itself takes before the loop.  The initialisations in
    between ([https_client_init], [dns_server_init], [daemon], the signal
    watchers, [dns_poller_init]) are calls into files that are not at hand
    and are taken to return. *)
Definition main_startup (env : startup_env) (opt : Options) : startup :=
  if negb (parse_args_rc env =? 0) then Usage
  else if daemonize opt && negb (setgid_rc env =? 0)
  then StartupFatal "Failed to set gid."
  else if daemonize opt && negb (setuid_rc env =? 0)
  then StartupFatal "Failed to set uid."
  else Started (loop_entry opt).

(** What the loop delivers to [main.c]. *)
Inductive event :=
  | EvQuery (srv : ptr) (addr : sockaddr_in) (txid flags : Z)
      (name : string) (type : Z)       (* dns_server decoded a query *)
  | EvComplete (h : nat) (buf : option (list byte)) (calloc_ok : bool)
                                       (* fetch [h] is over *)
  | EvPoll (addr : in_addr)            (* the poller resolved the host *)
  | EvSigpipe
  | EvSigint.

(** The events of the loop with the expiries of the poller's timer, which
    [main.c] does not see. *)
Inductive loop_event :=
  | PollTimer
  | Other (ev : event).

Definition is_timer (lev : loop_event) : bool :=
  match lev with PollTimer => true | Other _ => false end.

(** ** Well-formed loop states *)

(** Every outstanding fetch carries a live [request_t], no two of them the
    same one, and handles at or above [next_handle] are unused. *)
Definition inv (w : state) : Prop :=
  (∀ h f, inflight w !! h = Some f →
     ∃ p, f_data f = Some p ∧ is_Some (requests w !! p)) ∧
  (∀ h1 h2 f1 f2, inflight w !! h1 = Some f1 → inflight w !! h2 = Some f2 →
     f_data f1 = f_data f2 → h1 = h2) ∧
  (∀ h f, inflight w !! h = Some f → (h < next_handle w)%nat).

(** Fetch [h] is outstanding in [w] and its context is the block [p],
    holding [req]. *)
Definition pending (w : state) (h : nat) (p : ptr) (req : request_t) : Prop :=
  (∃ f, inflight w !! h = Some f ∧ f_data f = Some p) ∧
  requests w !! p = Some req.

(** The block [p] is live in [w] and no outstanding fetch will hand it back
    to [https_resp_cb]. *)
Definition orphan (w : state) (p : ptr) (req : request_t) : Prop :=
  requests w !! p = Some req ∧
  ∀ h f, inflight w !! h = Some f → f_data f ≠ Some p.

Definition is_poll (ev : event) : bool :=
  match ev with EvPoll _ => true | _ => false end.

Definition completes (h : nat) (ev : event) : bool :=
  match ev with EvComplete h' _ _ => Nat.eqb h h' | _ => false end.

(** ** The outbound request as the specification words it *)

(** Section 6: [GET https://<doh-host>/resolve?name=<escaped-name>&type=<type>],
    the host being the DoH server hostname of the configuration. *)
Definition spec_url (doh_host escaped_name : string) (type : Z) : string :=
  "https://" +:+ doh_host +:+ "/resolve?name=" +:+ escaped_name +:+ "&type="
  +:+ fmt_d type.

(** ** Concrete inputs *)

Definition example_env : startup_env :=
  {| parse_args_rc := 0; setgid_rc := 0; setuid_rc := 0 |}.

Definition example_opt : Options :=
  {| logfd := 2; loglevel := 2; listen_addr := "127.0.0.1";
     listen_port := 5053; daemonize := false; uid := 0; gid := 0;
     bootstrap_dns := "8.8.8.8"; http_dns_server := "dns.example.org";
     edns_client_subnet := "" |}.

Definition example_state : state := loop_entry example_opt.

(** Options whose client subnet string carries a parameter of its own. *)
Definition subnet_opt : Options :=
  {| logfd := 2; loglevel := 2; listen_addr := "127.0.0.1";
     listen_port := 5053; daemonize := false; uid := 0; gid := 0;
     bootstrap_dns := "8.8.8.8"; http_dns_server := "dns.google.com";
     edns_client_subnet := "0.0.0.0/0&cd=true" |}.

Definition client : sockaddr_in := {| sin_addr := 2130706433; sin_port := 40000 |}.

Definition server_handle : ptr := 9%positive.

Definition google_a : in_addr :=
  {| oct1 := x08; oct2 := x08; oct3 := x04; oct4 := x04 |}.

(** [example_state] after one query, whose fetch is outstanding under
    handle 0. *)
Definition example_fetch : fetch :=
  {| f_url := "https://dns.google.com/resolve?name=example.com&type=1";
     f_resolv := None; f_pinned := None; f_data := Some 1%positive |}.

Definition busy_state : state :=
  dns_server_cb server_handle client 4660 0 "example.com" 1 example_state.

Definition not_json : list byte := ["o"%byte; "o"%byte; "p"%byte; "s"%byte].

Fixpoint string_repeat (c : ascii) (n : nat) : string :=
  match n with
  | O => EmptyString
  | S n' => String c (string_repeat c n')
  end.

(** ** Vocabulary for runs and URLs *)

Definition is_query (ev : event) : bool :=
  match ev with EvQuery _ _ _ _ _ _ => true | _ => false end.

(** A completion that reports a failed fetch. *)
Definition null_completion (ev : event) : bool :=
  match ev with EvComplete _ None _ => true | _ => false end.

(** A query with the server, address and transaction id of [req] is among
    the events. *)
Definition asked (evs : list event) (req : request_t) : Prop :=
  ∃ flags name type,
    EvQuery (dns_server req) (raddr req) (tx_id req) flags name type ∈ evs.

Fixpoint string_drop (n : nat) (s : string) : string :=
  match n, s with
  | S n', String _ s' => string_drop n' s'
  | _, _ => s
  end.

Fixpoint string_take_while (p : ascii -> bool) (s : string) : string :=
  match s with
  | String c s' => if p c then String c (string_take_while p s') else EmptyString
  | EmptyString => EmptyString
  end.

(** The value of the first parameter of a URL of [dns_server_cb]: what
    stands between the 36 characters up to [name=] and the next
    ampersand. *)
Definition name_param (url : string) : string :=
  string_take_while not_amp (string_drop 36 url).



(** [busy_state] after a second query. *)
Definition two_state : state :=
  dns_server_cb server_handle client 7 0 "b.com" 28 busy_state.

Section Proxy.

(** [json_to_dns(tx_id, json, obuf, obuf_size)] of [json_to_dns.c], which is
    not among the sources: the return value and the bytes left in [obuf]. *)
Variable json_to_dns : Z -> list byte -> Z -> Z * list byte.

(** [calloc_ok] says whether the [calloc] of [bufcpy] succeeds. *)
Definition https_resp_cb (data : option ptr) (buf : option (list byte))
    (calloc_ok : bool) (w : state) : outcome :=
  let w := DLOG "buflen %u\n" w in
  match buf with
  | None => Running w
  | Some body =>
      let buflen := Z.of_nat (length body) in
      match data with
      | None => FLOG "data NULL" w
      | Some p =>
          if negb calloc_ok then FLOG "calloc" w
          else if (buflen + 1) mod 2 ^ 32 <=? buflen
          then Undefined               (* memcpy past the block *)
          else
            match requests w !! p with
            | None => Undefined        (* req points to freed memory *)
            | Some req =>
                let bufcpy := body ++ [x00] in
                let w := DLOG "Received response for id %04x: %.*s" w in
                let obuf_size := 1500 in
                let '(r, obuf) := json_to_dns (tx_id req) bufcpy obuf_size in
                let w :=
                  if r <=? 0 then ELOG "Failed to decode JSON." w
                  else dns_server_respond (dns_server req) (raddr req)
                         (take (Z.to_nat r) obuf) w in
                Running (set_requests (delete p (requests w)) w)
            end
      end
  end.

(** One turn of the loop.  A completion for a handle that is not
    outstanding does not occur (the callback fires exactly once) and is
    skipped.  SIGINT breaks the loop and [main] runs its clean-up. *)
Definition step (w : state) (ev : event) : outcome :=
  match ev with
  | EvQuery srv addr txid flags name type =>
      Running (dns_server_cb srv addr txid flags name type w)
  | EvComplete h buf calloc_ok =>
      match inflight w !! h with
      | Some f =>
          https_resp_cb (f_data f) buf calloc_ok
            (set_inflight (delete h (inflight w)) w)
      | None => Running w
      end
  | EvPoll addr => Running (dns_poll_cb addr w)
  | EvSigpipe => Running (sigpipe_cb w)
  | EvSigint =>
      Exited 0 (set_slists (curl_slist_free_all (resolv (app w)) (slists w)) w)
  end.

Fixpoint ev_run (w : state) (evs : list event) : outcome :=
  match evs with
  | [] => Running w
  | ev :: evs' =>
      match step w ev with
      | Running w' => ev_run w' evs'
      | o => o
      end
  end.

(** The states the loop can be in after start-up with options [opt]. *)
Definition reachable (opt : Options) (w : state) : Prop :=
  ∃ env w0 evs,
    main_startup env opt = Started w0 ∧ ev_run w0 evs = Running w.

(** The loop with the poller beside it: the lookups the poller has started
    are collected next to the process state. *)
Fixpoint run_with_poller (w : state) (started : list lookup)
    (levs : list loop_event) : outcome * list lookup :=
  match levs with
  | [] => (Running w, started)
  | PollTimer :: levs' =>
      run_with_poller w
        (started ++ [dns_poller_timer (dns_poller w) (length started)]) levs'
  | Other ev :: levs' =>
      match step w ev with
      | Running w' => run_with_poller w' started levs'
      | o => (o, started)
      end
  end.

(** Modelled from the spec: [json_to_dns.c] is not among the sources.
    Section 4.1 has [encodeResponse] write a DNS header reusing the query's
    transaction id: whenever the converter reports a positive length, the
    bytes it reports open with the id it was given. *)
Definition encoder_keeps_id : Prop :=
  ∀ id json olen r obuf,
    0 <= id < 65536 → json_to_dns id json olen = (r, obuf) → 0 < r →
    wire_tx_id (take (Z.to_nat r) obuf) = Some id.

(** * Properties *)

(** ** Strings *)

Lemma string_length_app (a b : string) :
  String.length (a +:+ b) = (String.length a + String.length b)%nat.
Proof. induction a as [|c a IH]; simpl; [reflexivity | now rewrite IH]. Qed.

Lemma string_take_length (n : nat) (s : string) :
  String.length (string_take n s) = Nat.min n (String.length s).
Proof.
  revert s; induction n as [|n IH]; intros [|c s]; simpl; try reflexivity.
  now rewrite IH.
Qed.

Lemma string_take_all (n : nat) (s : string) :
  (String.length s <= n)%nat → string_take n s = s.
Proof.
  revert s; induction n as [|n IH]; intros [|c s]; simpl; intros H;
    try reflexivity; try lia.
  f_equal; apply IH; lia.
Qed.

Lemma prefixb_app (p s : string) : prefixb p (p +:+ s) = true.
Proof.
  induction p as [|c p IH]; simpl; [reflexivity|].
  now rewrite Ascii.eqb_refl.
Qed.

Lemma prefixb_take (n : nat) (s : string) : prefixb (string_take n s) s = true.
Proof.
  revert s; induction n as [|n IH]; intros [|c s]; simpl; try reflexivity.
  now rewrite Ascii.eqb_refl, IH.
Qed.

Lemma containsb_app_r (p a s : string) :
  containsb p s = true → containsb p (a +:+ s) = true.
Proof.
  intros H; induction a as [|c a IH]; simpl; [exact H|].
  rewrite IH; apply orb_true_r.
Qed.

Lemma containsb_here (p s : string) : containsb p (p +:+ s) = true.
Proof.
  assert (H := prefixb_app p s).
  destruct (p +:+ s); simpl in *; rewrite H; reflexivity.
Qed.

Lemma prefixb_spec (p s : string) :
  prefixb p s = true ↔ ∃ b, s = p +:+ b.
Proof.
  split; [|intros [b ->]; apply prefixb_app].
  revert s; induction p as [|c p IH]; intros s; [exists s; reflexivity|].
  destruct s as [|x s]; cbn [prefixb]; [discriminate|].
  rewrite andb_true_iff, Ascii.eqb_eq. intros [-> H].
  destruct (IH _ H) as [b ->]. now exists b.
Qed.

(** [containsb] decides the substring relation. *)
Lemma containsb_spec (p s : string) :
  containsb p s = true ↔ ∃ a b, s = a +:+ p +:+ b.
Proof.
  split.
  - induction s as [|x s IH].
    + cbn [containsb]. rewrite orb_false_r. intros H.
      apply prefixb_spec in H as [b ->]. now exists EmptyString, b.
    + cbn [containsb]. rewrite orb_true_iff. intros [H|H].
      * apply prefixb_spec in H as [b ->]. now exists EmptyString, b.
      * destruct (IH H) as (a & b & ->). now exists (String x a), b.
  - intros (a & b & ->). apply containsb_app_r, containsb_here.
Qed.

(** A pattern cannot start inside a run that lacks its first character. *)
Lemma containsb_skip (c : ascii) (p a s : string) :
  string_forallb (fun x => negb (Ascii.eqb x c)) a = true →
  containsb (String c p) (a +:+ s) = containsb (String c p) s.
Proof.
  induction a as [|x a IH]; simpl; [reflexivity|].
  rewrite andb_true_iff, negb_true_iff; intros [Hx Ha].
  rewrite Ascii.eqb_sym, Hx; simpl; auto.
Qed.

Lemma unreserved_not_amp (c : ascii) :
  is_unreserved c = true → not_amp c = true.
Proof.
  destruct c as [[|] [|] [|] [|] [|] [|] [|] [|]]; vm_compute; auto.
Qed.

Lemma hex_digit_not_amp (c : ascii) :
  not_amp (hex_digit (N_of_ascii c / 16)) = true ∧
  not_amp (hex_digit (N_of_ascii c mod 16)) = true.
Proof.
  destruct c as [[|] [|] [|] [|] [|] [|] [|] [|]]; vm_compute; auto.
Qed.

Lemma curl_escape_no_amp (s : string) :
  string_forallb not_amp (curl_escape s) = true.
Proof.
  induction s as [|c s IH]; simpl; [reflexivity|].
  destruct (is_unreserved c) eqn:E; simpl.
  - now rewrite (unreserved_not_amp c E), IH.
  - destruct (hex_digit_not_amp c) as [-> ->]; now rewrite IH.
Qed.

Lemma unreserved_not_percent (c : ascii) :
  is_unreserved c = true → Ascii.eqb c "%" = false.
Proof.
  destruct c as [[|] [|] [|] [|] [|] [|] [|] [|]]; vm_compute; auto.
Qed.

Lemma hex_digits_value (c : ascii) :
  ascii_of_N (16 * hex_value (hex_digit (N_of_ascii c / 16))
              + hex_value (hex_digit (N_of_ascii c mod 16))) = c.
Proof.
  destruct c as [[|] [|] [|] [|] [|] [|] [|] [|]]; vm_compute; reflexivity.
Qed.

(** The escaped name is a percent-encoding of the name: unescaping it
    gives the name back. *)
Lemma percent_decode_escape (s : string) : percent_decode (curl_escape s) = s.
Proof.
  induction s as [|c s IH]; [reflexivity|]. cbn [curl_escape].
  destruct (is_unreserved c) eqn:E.
  - cbn [percent_decode]. now rewrite (unreserved_not_percent c E), IH.
  - change (percent_decode
              (String "%" (String (hex_digit (N_of_ascii c / 16))
                 (String (hex_digit (N_of_ascii c mod 16)) (curl_escape s)))))
      with (String
              (ascii_of_N (16 * hex_value (hex_digit (N_of_ascii c / 16))
                           + hex_value (hex_digit (N_of_ascii c mod 16))))
              (percent_decode (curl_escape s))).
    now rewrite hex_digits_value, IH.
Qed.

Lemma curl_escape_length (s : string) :
  (String.length (curl_escape s) <= 3 * String.length s)%nat.
Proof.
  induction s as [|c s IH]; simpl; [lia|].
  destruct (is_unreserved c); simpl; lia.
Qed.

Lemma uint_digits_no_amp (d : Decimal.uint) :
  string_forallb not_amp (NilEmpty.string_of_uint d) = true.
Proof. induction d; simpl; auto. Qed.

Lemma fmt_d_no_amp (n : Z) : string_forallb not_amp (fmt_d n) = true.
Proof.
  unfold fmt_d.
  destruct (Z.to_int n) as [d|d]; simpl; destruct d; simpl;
    auto using uint_digits_no_amp.
Qed.

(** The mask [1 << 4] selects bit 4, the Checking-Disabled bit of the
    header flags. *)
Lemma cd_bit_testbit (flags : Z) :
  (Z.land flags (Z.shiftl 1 4) =? 0) = negb (Z.testbit flags 4).
Proof.
  change (Z.shiftl 1 4) with (2 ^ 4).
  destruct (Z.testbit flags 4) eqn:E; simpl.
  - apply Z.eqb_neq; intros H.
    assert (B : Z.testbit (Z.land flags (2 ^ 4)) 4 = true).
    { rewrite Z.land_spec, E. reflexivity. }
    rewrite H in B; discriminate.
  - apply Z.eqb_eq, Z.bits_inj'; intros n Hn.
    rewrite Z.land_spec, Z.bits_0, Z.pow2_bits_eqb by lia.
    destruct (Z.eqb_spec 4 n) as [<-|]; [now rewrite E | apply andb_false_r].
Qed.

Lemma string_app_cons (x : ascii) (a b : string) :
  String x a +:+ b = String x (a +:+ b).
Proof. reflexivity. Qed.

Lemma string_app_nil_l (a : string) : EmptyString +:+ a = a.
Proof. reflexivity. Qed.

Lemma string_app_assoc (a b c : string) : (a +:+ b) +:+ c = a +:+ (b +:+ c).
Proof.
  induction a as [|x a IH]; [reflexivity|].
  rewrite !string_app_cons; f_equal; exact IH.
Qed.

Lemma prefixb_take_app (n : nat) (p s : string) :
  (String.length p <= n)%nat → prefixb p (string_take n (p +:+ s)) = true.
Proof.
  revert n; induction p as [|c p IH]; intros n H; simpl; [reflexivity|].
  destruct n as [|n]; simpl in *; [lia|].
  rewrite Ascii.eqb_refl; apply IH; lia.
Qed.

(** ** The URL of a query *)

Lemma dns_server_cb_fetched srv addr txid flags name type (w : state) :
  fetched (dns_server_cb srv addr txid flags name type w) =
  fetched w ++
    [{| f_url := build_url name type flags (extra_request_args (app w));
        f_resolv := resolv (app w);
        f_pinned := match resolv (app w) with
                    | Some q => slists w !! q
                    | None => None
                    end;
        f_data := Some (fresh (dom (requests w))) |}].
Proof. reflexivity. Qed.

Lemma dns_server_cb_inflight srv addr txid flags name type (w : state) :
  inflight (dns_server_cb srv addr txid flags name type w) =
  <[next_handle w :=
      {| f_url := build_url name type flags (extra_request_args (app w));
         f_resolv := resolv (app w);
         f_pinned := match resolv (app w) with
                     | Some q => slists w !! q
                     | None => None
                     end;
         f_data := Some (fresh (dom (requests w))) |}]> (inflight w).
Proof. reflexivity. Qed.

Lemma build_url_cd (name : string) (type flags : Z) (extra : string) :
  build_url name type flags extra =
  string_take 1498
    ("https://dns.google.com/resolve?name=" +:+ curl_escape name +:+ "&type="
     +:+ fmt_d type +:+ (if Z.testbit flags 4 then "&cd=true" else "")
     +:+ extra).
Proof.
  unfold build_url, url_format, snprintf.
  rewrite cd_bit_testbit, negb_involutive. reflexivity.
Qed.

(** C10: for every query, [dns_server_cb] issues exactly one fetch, whose
    URL is the first 1498 characters of the formatted text: never longer
    than 1498, exactly 1498 and cut short when the text is longer.  The
    query is not dropped and nothing but the debug line is logged. *)
Theorem url_truncated_not_dropped srv addr txid flags name type (w : state) :
  let full := url_format (curl_escape name) type
                (Z.land flags (Z.shiftl 1 4)) (extra_request_args (app w)) in
  let w' := dns_server_cb srv addr txid flags name type w in
  step w (EvQuery srv addr txid flags name type) = Running w' ∧
  ∃ f, fetched w' = fetched w ++ [f] ∧
       inflight w' !! next_handle w = Some f ∧
       f_url f = string_take 1498 full ∧
       (String.length (f_url f) <= 1498)%nat ∧
       ((1498 < String.length full)%nat →
          String.length (f_url f) = 1498%nat ∧ f_url f ≠ full) ∧
       sent w' = sent w ∧
       log w' = log w ++
         [(LOG_DEBUG,
           "Received request for '%s' id: %04x, type %d, flags %04x")].
Proof.
  intros full w'. split; [reflexivity|].
  eexists. split; [apply dns_server_cb_fetched|].
  split; [subst w'; rewrite dns_server_cb_inflight; apply lookup_insert_eq|].
  cbn [f_url]. unfold build_url, snprintf. fold full.
  change (1500 - 1 - 1)%nat with 1498%nat.
  assert (L := string_take_length 1498 full).
  repeat split; try lia.
  intros E; rewrite E in L; lia.
Qed.

Lemma edns_args_length opt : (String.length (edns_args opt) <= 198)%nat.
Proof.
  unfold edns_args. destruct (edns_client_subnet opt); [cbn; lia|].
  unfold snprintf. rewrite string_take_length. lia.
Qed.

(** A name within the 255 characters of a DNS name never overflows the
    buffer, whatever the configured subnet: escaping at most triples it. *)
Lemma short_names_fit opt (name : string) (type cd_bit : Z) :
  (String.length name <= 255)%nat →
  (String.length (fmt_d type) <= 11)%nat →
  (String.length (url_format (curl_escape name) type cd_bit (edns_args opt))
     <= 1498)%nat.
Proof.
  intros Hname Htype. unfold url_format.
  rewrite !string_length_app.
  pose proof (curl_escape_length name). pose proof (edns_args_length opt).
  assert (Hcd : (String.length
                   (if negb (cd_bit =? 0)%Z then "&cd=true" else "")
                 <= 8)%nat) by (destruct (negb _); cbn; lia).
  cbn [String.length]. lia.
Qed.

(** C5 (amended): when the formatted URL fits the buffer and the configured
    extra arguments do not themselves contain the text, the URL handed to
    the dispatcher contains [&cd=true] exactly when bit 4 of the flags, the
    Checking-Disabled bit, is set. *)
Theorem cd_param_iff_cd_bit srv addr txid flags name type (w : state) :
  (String.length
     (url_format (curl_escape name) type (Z.land flags (Z.shiftl 1 4))
        (extra_request_args (app w))) <= 1498)%nat →
  containsb "&cd=true" (extra_request_args (app w)) = false →
  ∃ f, fetched (dns_server_cb srv addr txid flags name type w)
         = fetched w ++ [f] ∧
       (containsb "&cd=true" (f_url f) = true ↔ Z.testbit flags 4 = true).
Proof.
  intros Hfit Hextra.
  eexists; split; [apply dns_server_cb_fetched|]. cbn [f_url].
  unfold build_url, snprintf. rewrite string_take_all by exact Hfit.
  unfold url_format. rewrite cd_bit_testbit, negb_involutive.
  rewrite (containsb_skip "&" _ "https://dns.google.com/resolve?name=")
    by reflexivity.
  rewrite (containsb_skip "&" _ _ _ (curl_escape_no_amp name)).
  destruct (Z.testbit flags 4).
  - split; [reflexivity | intros _].
    apply (containsb_app_r _ "&type="), containsb_app_r, containsb_here.
  - rewrite !string_app_cons, !string_app_nil_l. simpl.
    rewrite (containsb_skip "&" _ _ _ (fmt_d_no_amp type)).
    rewrite Hextra. split; discriminate.
Qed.

(** ** The completion handler *)

Lemma https_resp_cb_null data calloc_ok (w : state) :
  https_resp_cb data None calloc_ok w = Running (DLOG "buflen %u\n" w).
Proof. reflexivity. Qed.

Lemma https_resp_cb_nomem p body (w : state) :
  https_resp_cb (Some p) (Some body) false w
  = Fatal (log_line LOG_FATAL "calloc" (DLOG "buflen %u\n" w)).
Proof. reflexivity. Qed.

Lemma https_resp_cb_body p req body (w : state) :
  requests w !! p = Some req →
  Z.of_nat (length body) + 1 < 2 ^ 32 →
  https_resp_cb (Some p) (Some body) true w =
  let w1 := DLOG "Received response for id %04x: %.*s"
              (DLOG "buflen %u\n" w) in
  let '(r, obuf) := json_to_dns (tx_id req) (body ++ [x00]) 1500 in
  Running
    (set_requests (delete p (requests w))
       (if r <=? 0 then ELOG "Failed to decode JSON." w1
        else dns_server_respond (dns_server req) (raddr req)
               (take (Z.to_nat r) obuf) w1)).
Proof.
  intros Hreq Hlen. unfold https_resp_cb. cbn [negb].
  rewrite Z.mod_small by lia.
  destruct (Z.leb_spec (Z.of_nat (length body) + 1) (Z.of_nat (length body)));
    [lia|].
  change (requests (DLOG "buflen %u\n" w)) with (requests w).
  rewrite Hreq. destruct (json_to_dns _ _ _) as [r obuf].
  destruct (r <=? 0); reflexivity.
Qed.

(** Whatever the handler is given, if the process keeps running then it
    touched nothing but the log, the context block and the replies. *)
Lemma https_resp_cb_running data buf calloc_ok (w w' : state) :
  https_resp_cb data buf calloc_ok w = Running w' →
  app w' = app w ∧ dns_poller w' = dns_poller w ∧ slists w' = slists w ∧
  inflight w' = inflight w ∧ next_handle w' = next_handle w ∧
  fetched w' = fetched w ∧
  ((buf = None ∧ requests w' = requests w ∧ sent w' = sent w) ∨
   (∃ body p req,
      buf = Some body ∧ data = Some p ∧ requests w !! p = Some req ∧
      requests w' = delete p (requests w) ∧
      (sent w' = sent w ∨
       ∃ r obuf,
         json_to_dns (tx_id req) (body ++ [x00]) 1500 = (r, obuf) ∧ 0 < r ∧
         sent w' = sent w ++
           [{| r_server := dns_server req; r_addr := raddr req;
               r_bytes := take (Z.to_nat r) obuf |}]))).
Proof.
  unfold https_resp_cb.
  destruct buf as [body|]; [|intros [= <-]; repeat split; left; auto].
  destruct data as [p|]; [|discriminate].
  destruct calloc_ok; [|discriminate]. cbn [negb].
  destruct (_ <=? Z.of_nat (length body)); [discriminate|].
  change (requests (DLOG "buflen %u\n" w)) with (requests w).
  destruct (requests w !! p) as [req|] eqn:Hreq; [|discriminate].
  destruct (json_to_dns _ _ _) as [r obuf] eqn:Hconv.
  destruct (Z.leb_spec r 0); intros [= <-]; repeat split;
    right; exists body, p, req; repeat split; auto.
  right. exists r, obuf. auto.
Qed.

(** ** Invariants of the loop *)

Lemma inv_startup env opt (w0 : state) :
  main_startup env opt = Started w0 → inv w0.
Proof.
  unfold main_startup.
  destruct (negb _); [discriminate|].
  destruct (_ && _); [discriminate|].
  destruct (_ && _); [discriminate|].
  intros [= <-]. repeat split; cbn; intros *; rewrite lookup_empty; discriminate.
Qed.

Lemma inv_dns_server_cb srv addr txid flags name type (w : state) :
  inv w → inv (dns_server_cb srv addr txid flags name type w).
Proof.
  intros (I1 & I2 & I3).
  assert (Hfresh : requests w !! fresh (dom (requests w)) = None).
  { apply not_elem_of_dom, is_fresh. }
  set (p := fresh (dom (requests w))) in *.
  unfold inv. rewrite dns_server_cb_inflight. fold p.
  change (requests (dns_server_cb srv addr txid flags name type w))
    with (<[p := {| tx_id := txid; raddr := addr; dns_server := srv |}]>
            (requests w)).
  change (next_handle (dns_server_cb srv addr txid flags name type w))
    with (S (next_handle w)).
  assert (Hnh : inflight w !! next_handle w = None).
  { destruct (inflight w !! next_handle w) eqn:E; [|reflexivity].
    apply I3 in E; lia. }
  repeat split.
  - intros h f. rewrite lookup_insert. case_decide as Hh.
    + intros [= <-]. exists p. split; [reflexivity|].
      rewrite lookup_insert_eq; eauto.
    + intros Hf. destruct (I1 _ _ Hf) as (p0 & Hp0 & Hlive).
      exists p0. split; [exact Hp0|].
      rewrite lookup_insert_is_Some. destruct (decide (p = p0)); auto.
  - intros h1 h2 f1 f2. rewrite !lookup_insert.
    case_decide as H1; case_decide as H2; try congruence.
    + intros [= <-] Hf2 Hd. cbn in Hd.
      destruct (I1 _ _ Hf2) as (p0 & Hp0 & [r Hlive]). congruence.
    + intros Hf1 [= <-] Hd. cbn in Hd.
      destruct (I1 _ _ Hf1) as (p0 & Hp0 & [r Hlive]). congruence.
    + apply I2.
  - intros h f. rewrite lookup_insert. case_decide as Hh.
    + subst h. lia.
    + intros Hf. apply I3 in Hf. lia.
Qed.

Lemma inv_complete h f buf calloc_ok (w w' : state) :
  inv w → inflight w !! h = Some f →
  https_resp_cb (f_data f) buf calloc_ok
    (set_inflight (delete h (inflight w)) w) = Running w' →
  inv w'.
Proof.
  intros (I1 & I2 & I3) Hf Hcb.
  apply https_resp_cb_running in Hcb
    as (_ & _ & _ & Hin & Hnh & _ & Hcase).
  cbn in Hin, Hnh, Hcase. unfold inv. rewrite Hin, Hnh.
  repeat split.
  - intros h0 f0 H0. apply lookup_delete_Some in H0 as [Hne H0].
    destruct (I1 _ _ H0) as (p0 & Hp0 & Hlive).
    exists p0. split; [exact Hp0|].
    destruct Hcase as [(_ & -> & _) | (body & p & req & _ & Hd & _ & -> & _)];
      [exact Hlive|].
    rewrite lookup_delete_ne; [exact Hlive|].
    intros ->. apply Hne. apply (I2 _ _ _ _ Hf H0). congruence.
  - intros h1 h2 f1 f2 H1 H2.
    apply lookup_delete_Some in H1 as [_ H1].
    apply lookup_delete_Some in H2 as [_ H2]. eauto.
  - intros h0 f0 H0. apply lookup_delete_Some in H0 as [_ H0]. eauto.
Qed.

Lemma inv_step (w w' : state) (ev : event) :
  inv w → step w ev = Running w' → inv w'.
Proof.
  intros I. destruct ev as [srv addr txid flags name type|h buf ok|a| |]; cbn.
  - intros [= <-]. now apply inv_dns_server_cb.
  - destruct (inflight w !! h) as [f|] eqn:Hf.
    + now apply inv_complete.
    + now intros [= <-].
  - intros [= <-]. exact I.
  - intros [= <-]. exact I.
  - discriminate.
Qed.

Lemma inv_ev_run (evs : list event) (w w' : state) :
  inv w → ev_run w evs = Running w' → inv w'.
Proof.
  revert w; induction evs as [|ev evs IH]; intros w I; cbn.
  - now intros [= <-].
  - destruct (step w ev) as [w1| | |] eqn:E; try discriminate.
    apply IH. eapply inv_step; eauto.
Qed.

Lemma reachable_inv opt (w : state) : reachable opt w → inv w.
Proof.
  intros (env & w0 & evs & Hs & Hr).
  eapply inv_ev_run; [eapply inv_startup|]; eauto.
Qed.

Lemma reachable_step opt (w w' : state) (ev : event) :
  reachable opt w → step w ev = Running w' → reachable opt w'.
Proof.
  intros (env & w0 & evs & Hs & Hr) Hstep.
  exists env, w0, (evs ++ [ev]). split; [exact Hs|].
  clear Hs. revert w0 Hr. induction evs as [|e evs IH]; intros w0; cbn.
  - intros [= ->]. now rewrite Hstep.
  - destruct (step w0 e); try discriminate. apply IH.
Qed.

(** ** What start-up fixes for the whole run *)

Lemma startup_state env opt (w0 : state) :
  main_startup env opt = Started w0 →
  extra_request_args (app w0) = edns_args opt ∧
  dns_poller w0
    = dns_poller_init (bootstrap_dns opt) (http_dns_server opt) 120 ∧
  resolv (app w0) = None ∧ fetched w0 = [] ∧ sent w0 = [].
Proof.
  unfold main_startup.
  destruct (negb _); [discriminate|].
  destruct (_ && _); [discriminate|].
  destruct (_ && _); [discriminate|].
  intros [= <-]. repeat split.
Qed.

Lemma step_static (w w' : state) (ev : event) :
  step w ev = Running w' →
  extra_request_args (app w') = extra_request_args (app w) ∧
  dns_poller w' = dns_poller w.
Proof.
  destruct ev as [srv addr txid flags name type|h buf ok|a| |]; cbn;
    try (intros [= <-]; split; reflexivity); try discriminate.
  destruct (inflight w !! h) as [f|]; [|intros [= <-]; split; reflexivity].
  intros H. apply https_resp_cb_running in H as (-> & -> & _).
  split; reflexivity.
Qed.

Lemma ev_run_static (evs : list event) (w w' : state) :
  ev_run w evs = Running w' →
  extra_request_args (app w') = extra_request_args (app w) ∧
  dns_poller w' = dns_poller w.
Proof.
  revert w; induction evs as [|ev evs IH]; intros w; cbn.
  - intros [= <-]; split; reflexivity.
  - destruct (step w ev) as [w1| | |] eqn:E; try discriminate.
    intros H. apply IH in H as [-> ->]. now apply step_static in E.
Qed.

Lemma reachable_static opt (w : state) :
  reachable opt w →
  extra_request_args (app w) = edns_args opt ∧
  dns_poller w
    = dns_poller_init (bootstrap_dns opt) (http_dns_server opt) 120.
Proof.
  intros (env & w0 & evs & Hs & Hr).
  apply ev_run_static in Hr as [-> ->].
  apply startup_state in Hs as (-> & -> & _). split; reflexivity.
Qed.

Lemma run_with_poller_lookups (levs : list loop_event) (w : state)
    (started : list lookup) (o : outcome) (ls : list lookup) :
  run_with_poller w started levs = (o, ls) →
  ∃ new, ls = started ++ new ∧
    (∀ n l, new !! n = Some l →
       l = dns_poller_timer (dns_poller w) (length started + n)) ∧
    (∀ w', o = Running w' →
       length new = length (List.filter is_timer levs) ∧
       dns_poller w' = dns_poller w).
Proof.
  revert w started; induction levs as [|lev levs IH]; intros w started; cbn.
  - intros [= <- <-]. exists []. rewrite app_nil_r. split; [reflexivity|].
    split; [intros n l; now rewrite lookup_nil|].
    now intros w' [= <-].
  - destruct lev as [|ev].
    + intros H. destruct (IH _ _ H) as (new & -> & Hnew & Hrun).
      exists (dns_poller_timer (dns_poller w) (length started) :: new).
      rewrite <- app_assoc. split; [reflexivity|]. split.
      * intros [|n] l; cbn.
        -- intros [= <-]. now rewrite Nat.add_0_r.
        -- intros Hl. rewrite (Hnew _ _ Hl), length_app. cbn.
           f_equal. lia.
      * intros w' Hw'. destruct (Hrun _ Hw') as [Hlen Hp].
        split; [cbn; now rewrite Hlen | exact Hp].
    + destruct (step w ev) as [w1| | |] eqn:E;
        try (intros [= <- <-]; exists []; rewrite app_nil_r;
             split; [reflexivity|];
             split; [intros n l; now rewrite lookup_nil | discriminate]).
      intros H. destruct (IH _ _ H) as (new & -> & Hnew & Hrun).
      apply step_static in E as [_ E].
      exists new. split; [reflexivity|]. rewrite <- E. split; [exact Hnew|].
      intros w' Hw'. destruct (Hrun _ Hw') as [Hlen Hp]. now split.
Qed.

(** C8: every resolution the poller starts, at whatever point of the run,
    is of the DoH hostname of the configuration and goes through the
    configured bootstrap nameserver, not the system default resolver, and
    the [n]-th one after the first comes [120 * n] seconds after it; there
    is one per expiry of the timer, and the period stays 120. *)
Theorem poller_resolves_through_bootstrap env opt
    (levs : list loop_event) (w0 : state) (o : outcome) (ls : list lookup) :
  main_startup env opt = Started w0 →
  run_with_poller w0 [] levs = (o, ls) →
  (∀ n l, ls !! n = Some l →
     lk_resolver l = Nameserver (bootstrap_dns opt) ∧
     lk_hostname l = http_dns_server opt ∧
     lk_after_first l = 120 * Z.of_nat n) ∧
  (∀ w, o = Running w →
     length ls = length (List.filter is_timer levs) ∧
     poll_interval (dns_poller w) = 120).
Proof.
  intros Hs Hrun.
  apply startup_state in Hs as (_ & Hp & _).
  destruct (run_with_poller_lookups _ _ _ _ _ Hrun) as (new & -> & Hnew & Hw).
  rewrite Hp in Hnew, Hw. split.
  - intros n l Hl. cbn in Hl. rewrite (Hnew _ _ Hl). cbn.
    repeat split. lia.
  - intros w Ho. destruct (Hw _ Ho) as [Hlen ->].
    split; [exact Hlen | reflexivity].
Qed.

(** C2 (amended): whatever DoH hostname the configuration names, the fetch
    issued for a query has the URL
    [https://dns.google.com/resolve?name=<escaped-name>&type=<type>]
    followed by [&cd=true] when the CD bit is set and by the configured
    extra arguments, cut to 1498 characters; the host part is always there
    and the name and type are whenever they fit. *)
Theorem url_of_query opt srv addr txid flags name type (w : state) :
  reachable opt w →
  ∃ f, fetched (dns_server_cb srv addr txid flags name type w)
         = fetched w ++ [f] ∧
       f_url f =
         string_take 1498
           ("https://dns.google.com/resolve?name=" +:+ curl_escape name
            +:+ "&type=" +:+ fmt_d type
            +:+ (if Z.testbit flags 4 then "&cd=true" else "")
            +:+ edns_args opt) ∧
       prefixb "https://dns.google.com/resolve?name=" (f_url f) = true ∧
       ((String.length (curl_escape name) + String.length (fmt_d type) + 42
           <= 1498)%nat →
        prefixb
          ("https://dns.google.com/resolve?name=" +:+ curl_escape name
           +:+ "&type=" +:+ fmt_d type) (f_url f) = true).
Proof.
  intros Hr. apply reachable_static in Hr as [Hextra _].
  eexists; split; [apply dns_server_cb_fetched|]. cbn [f_url].
  rewrite build_url_cd, Hextra.
  split; [reflexivity|]. split.
  - apply prefixb_take_app. cbn. lia.
  - intros Hfit.
    set (tail := (if Z.testbit flags 4 then "&cd=true" else "")
                 +:+ edns_args opt).
    replace ("https://dns.google.com/resolve?name=" +:+ curl_escape name
             +:+ "&type=" +:+ fmt_d type +:+ tail)
      with (("https://dns.google.com/resolve?name=" +:+ curl_escape name
             +:+ "&type=" +:+ fmt_d type) +:+ tail)
      by now rewrite !string_app_assoc.
    apply prefixb_take_app.
    rewrite !string_length_app. cbn [String.length]. lia.
Qed.

(** ** Before the first resolution *)

Lemma no_poll_step (w w' : state) (ev : event) :
  is_poll ev = false → step w ev = Running w' →
  resolv (app w') = resolv (app w) ∧ slists w' = slists w.
Proof.
  destruct ev as [srv addr txid flags name type|h buf ok|a| |]; cbn;
    try (intros _ [= <-]; split; reflexivity); try discriminate.
  intros _.
  destruct (inflight w !! h) as [f|]; [|intros [= <-]; split; reflexivity].
  intros H. apply https_resp_cb_running in H as (-> & _ & -> & _).
  split; reflexivity.
Qed.

(** Between two resolutions every fetch is issued with the current
    [resolv] and the list it points to. *)
Lemma no_poll_run (evs : list event) (w w' : state) :
  forallb (λ ev, negb (is_poll ev)) evs = true →
  ev_run w evs = Running w' →
  resolv (app w') = resolv (app w) ∧ slists w' = slists w ∧
  ∃ issued, fetched w' = fetched w ++ issued ∧
    Forall (λ f, f_resolv f = resolv (app w) ∧
                 f_pinned f = match resolv (app w) with
                              | Some q => slists w !! q
                              | None => None
                              end) issued.
Proof.
  revert w; induction evs as [|ev evs IH]; intros w; cbn.
  - intros _ [= <-]. repeat split. exists []. now rewrite app_nil_r.
  - rewrite andb_true_iff, negb_true_iff. intros [Hev Hevs].
    destruct (step w ev) as [w1| | |] eqn:E; try discriminate.
    intros Hrun.
    destruct (no_poll_step _ _ _ Hev E) as [Hr Hs].
    destruct (IH _ Hevs Hrun) as (-> & -> & issued & -> & Hall).
    rewrite Hr, Hs in *. repeat split.
    destruct ev as [srv addr txid flags name type|h buf ok|a| |];
      cbn in E; try discriminate.
    + injection E as <-. rewrite dns_server_cb_fetched, <- app_assoc.
      eexists; split; [reflexivity|]. constructor; [split; reflexivity|].
      exact Hall.
    + destruct (inflight w !! h) as [f|]; [|injection E as <-; eauto].
      apply https_resp_cb_running in E as (_ & _ & _ & _ & _ & -> & _).
      eauto.
    + injection E as <-. eauto.
Qed.

(** C9: as long as the poller has not delivered an address, [app.resolv]
    is NULL and every fetch has been issued with a NULL [resolv], hence
    with no pinned address. *)
Theorem no_override_before_first_poll env opt (w0 w : state)
    (evs : list event) :
  main_startup env opt = Started w0 →
  forallb (λ ev, negb (is_poll ev)) evs = true →
  ev_run w0 evs = Running w →
  resolv (app w) = None ∧
  Forall (λ f, f_resolv f = None ∧ f_pinned f = None) (fetched w).
Proof.
  intros Hs Hnp Hrun.
  apply startup_state in Hs as (_ & _ & Hres & Hf & _).
  destruct (no_poll_run _ _ _ Hnp Hrun) as (-> & _ & issued & -> & Hall).
  rewrite Hres, Hf in *. split; [reflexivity | exact Hall].
Qed.

(** ** Replacing the resolver override *)

Lemma fmt_u_byte_length (b : byte) :
  (String.length (fmt_u (Byte.to_N b)) <= 3)%nat.
Proof. destruct b; vm_compute; lia. Qed.

(** The 109 bytes left in [buf] always hold a dotted quad. *)
Lemma ares_inet_ntop_fits (a : in_addr) :
  ares_inet_ntop a (128 - 19) = dotted_quad a.
Proof.
  unfold ares_inet_ntop.
  destruct (Z.ltb_spec (Z.of_nat (String.length (dotted_quad a))) (128 - 19))
    as [_|H]; [reflexivity|exfalso].
  unfold dotted_quad in H. rewrite !string_length_app in H.
  cbn [String.length] in H.
  pose proof (fmt_u_byte_length (oct1 a)). pose proof (fmt_u_byte_length (oct2 a)).
  pose proof (fmt_u_byte_length (oct3 a)). pose proof (fmt_u_byte_length (oct4 a)).
  lia.
Qed.

Lemma dns_poll_cb_resolv (a : in_addr) (w : state) :
  ∃ q, resolv (app (dns_poll_cb a w)) = Some q ∧
       slists (dns_poll_cb a w) !! q
         = Some ["dns.google.com:443:" +:+ dotted_quad a].
Proof.
  unfold dns_poll_cb. rewrite ares_inet_ntop_fits. cbn.
  eexists; split; [reflexivity | apply lookup_insert_eq].
Qed.

(** The list a fetch was handed does not outlive the next resolution: the
    block is freed, and at best reused for the new list. *)
Lemma dns_poll_cb_frees_old (a : in_addr) (w : state) (q : ptr) :
  resolv (app w) = Some q →
  slists (dns_poll_cb a w) !! q = None ∨
  slists (dns_poll_cb a w) !! q
    = Some ["dns.google.com:443:" +:+ dotted_quad a].
Proof.
  intros Hq. unfold dns_poll_cb. rewrite ares_inet_ntop_fits. cbn.
  rewrite Hq. cbn. rewrite lookup_insert. case_decide; [now right|].
  left. apply lookup_delete_eq.
Qed.

(** Handles are not reused: a fetch found under an old handle is the one
    that was issued under it. *)
Lemma old_handles_step (w w' : state) (ev : event) :
  step w ev = Running w' →
  (next_handle w <= next_handle w')%nat ∧
  ∀ h f, inflight w' !! h = Some f → (h < next_handle w)%nat →
         inflight w !! h = Some f.
Proof.
  destruct ev as [srv addr txid flags name type|h0 buf ok|a| |]; cbn.
  - intros [= <-]. split; [cbn; lia|]. intros h f.
    rewrite dns_server_cb_inflight, lookup_insert.
    case_decide; [lia | auto].
  - destruct (inflight w !! h0) as [f0|]; [|intros [= <-]; split; [lia|auto]].
    intros H.
    apply https_resp_cb_running in H as (_ & _ & _ & Hin & Hnh & _).
    cbn in Hin, Hnh. rewrite Hin, Hnh. split; [lia|].
    intros h f Hf _. now apply lookup_delete_Some in Hf as [_ Hf].
  - intros [= <-]. split; [cbn; lia | auto].
  - intros [= <-]. split; [cbn; lia | auto].
  - discriminate.
Qed.

Lemma old_handles_run (evs : list event) (w w' : state) :
  ev_run w evs = Running w' →
  (next_handle w <= next_handle w')%nat ∧
  ∀ h f, inflight w' !! h = Some f → (h < next_handle w)%nat →
         inflight w !! h = Some f.
Proof.
  revert w; induction evs as [|ev evs IH]; intros w; cbn.
  - intros [= <-]. split; [lia | auto].
  - destruct (step w ev) as [w1| | |] eqn:E; try discriminate.
    intros Hrun. apply old_handles_step in E as [L1 O1].
    apply IH in Hrun as [L2 O2]. split; [lia|].
    intros h f Hf Hh. apply O1; [|exact Hh]. apply O2; [exact Hf | lia].
Qed.

(** ** A request between dispatch and completion *)

Lemma pending_dns_server_cb srv addr txid flags name type (w : state) :
  pending (dns_server_cb srv addr txid flags name type w) (next_handle w)
    (fresh (dom (requests w)))
    {| tx_id := txid; raddr := addr; dns_server := srv |}.
Proof.
  split.
  - eexists. rewrite dns_server_cb_inflight, lookup_insert_eq.
    split; reflexivity.
  - cbn. apply lookup_insert_eq.
Qed.

Lemma complete_pending h p req buf calloc_ok (w : state) :
  pending w h p req →
  step w (EvComplete h buf calloc_ok)
  = https_resp_cb (Some p) buf calloc_ok
      (set_inflight (delete h (inflight w)) w).
Proof. intros [(f & Hf & Hd) _]. cbn. now rewrite Hf, Hd. Qed.

(** Nothing but its own completion touches a pending request. *)
Lemma pending_step h p req (w w' : state) (ev : event) :
  inv w → pending w h p req → completes h ev = false →
  step w ev = Running w' → pending w' h p req.
Proof.
  intros (I1 & I2 & I3) [(f & Hf & Hd) Hreq] Hc.
  destruct ev as [srv addr txid flags name type|h0 buf ok|a| |]; cbn;
    [| |intros [= <-]; split; eauto|intros [= <-]; split; eauto|discriminate].
  - intros [= <-]. split.
    + exists f. rewrite dns_server_cb_inflight, lookup_insert_ne; [auto|].
      apply I3 in Hf. lia.
    + cbn. rewrite lookup_insert_ne; [exact Hreq|].
      intros E. pose proof (is_fresh (dom (requests w))) as Hfr.
      rewrite E in Hfr. apply Hfr, elem_of_dom. eauto.
  - cbn in Hc. apply Nat.eqb_neq in Hc.
    destruct (inflight w !! h0) as [f0|] eqn:Hf0;
      [|intros [= <-]; split; eauto].
    intros H.
    apply https_resp_cb_running in H
      as (_ & _ & _ & Hin & _ & _ & Hcase). cbn in Hin, Hcase.
    split.
    + exists f. rewrite Hin, lookup_delete_ne; auto.
    + destruct Hcase as [(_ & -> & _) | (body & p0 & r0 & _ & Hd0 & _ & -> & _)];
        [exact Hreq|].
      rewrite lookup_delete_ne; [exact Hreq|].
      intros ->. apply Hc. apply (I2 _ _ _ _ Hf Hf0). congruence.
Qed.

Lemma pending_run h p req (evs : list event) (w w' : state) :
  inv w → pending w h p req →
  forallb (λ ev, negb (completes h ev)) evs = true →
  ev_run w evs = Running w' → pending w' h p req.
Proof.
  revert w; induction evs as [|ev evs IH]; intros w I P; cbn.
  - now intros _ [= <-].
  - rewrite andb_true_iff, negb_true_iff. intros [Hev Hevs].
    destruct (step w ev) as [w1| | |] eqn:E; try discriminate.
    apply IH; eauto using inv_step, pending_step.
Qed.

(** A block no outstanding fetch refers to stays allocated for good. *)
Lemma orphan_step p req (w w' : state) (ev : event) :
  orphan w p req → step w ev = Running w' → orphan w' p req.
Proof.
  intros [Hreq Hno].
  destruct ev as [srv addr txid flags name type|h0 buf ok|a| |]; cbn;
    [| |intros [= <-]; split; eauto|intros [= <-]; split; eauto|discriminate].
  - assert (Hne : fresh (dom (requests w)) ≠ p).
    { intros E. pose proof (is_fresh (dom (requests w))) as Hfr.
      rewrite E in Hfr. apply Hfr, elem_of_dom. eauto. }
    intros [= <-]. split.
    + cbn. rewrite lookup_insert_ne; auto.
    + intros h f. rewrite dns_server_cb_inflight, lookup_insert.
      case_decide; [|now apply Hno].
      intros [= <-]. cbn. congruence.
  - destruct (inflight w !! h0) as [f0|] eqn:Hf0;
      [|intros [= <-]; split; eauto].
    intros H.
    apply https_resp_cb_running in H
      as (_ & _ & _ & Hin & _ & _ & Hcase). cbn in Hin, Hcase.
    split.
    + destruct Hcase as [(_ & -> & _) | (body & p0 & r0 & _ & Hd0 & _ & -> & _)];
        [exact Hreq|].
      rewrite lookup_delete_ne; [exact Hreq|].
      intros ->. now apply (Hno _ _ Hf0).
    + intros h f. rewrite Hin. intros Hf.
      apply lookup_delete_Some in Hf as [_ Hf]. eauto.
Qed.

Lemma orphan_run p req (evs : list event) (w w' : state) :
  orphan w p req → ev_run w evs = Running w' → orphan w' p req.
Proof.
  revert w; induction evs as [|ev evs IH]; intros w O; cbn.
  - now intros [= <-].
  - destruct (step w ev) as [w1| | |] eqn:E; try discriminate.
    apply IH. eapply orphan_step; eauto.
Qed.

Lemma reachable_pending opt h f (w : state) :
  reachable opt w → inflight w !! h = Some f →
  ∃ p req, f_data f = Some p ∧ pending w h p req.
Proof.
  intros Hr Hf. apply reachable_inv in Hr as (I1 & _).
  destruct (I1 _ _ Hf) as (p & Hd & [req Hreq]).
  exists p, req. repeat split; eauto.
Qed.

(** A completion with a NULL body returns before [free(req)]: no reply,
    no conversion, and the request block stays allocated with nothing left
    to free it, whatever happens afterwards. *)
Lemma null_completion_leaks opt h f calloc_ok (w : state) :
  reachable opt w → inflight w !! h = Some f →
  ∃ p req w',
    f_data f = Some p ∧ requests w !! p = Some req ∧
    step w (EvComplete h None calloc_ok) = Running w' ∧
    sent w' = sent w ∧ inflight w' !! h = None ∧
    log w' = log w ++ [(LOG_DEBUG, "buflen %u\n")] ∧
    ∀ evs w'', ev_run w' evs = Running w'' → requests w'' !! p = Some req.
Proof.
  intros Hr Hf.
  destruct (reachable_pending _ _ _ _ Hr Hf) as (p & req & Hd & P).
  apply reachable_inv in Hr as (_ & I2 & _).
  exists p, req. eexists. split; [exact Hd|]. split; [apply P|].
  rewrite (complete_pending _ _ _ _ _ _ P), https_resp_cb_null.
  split; [reflexivity|]. split; [reflexivity|].
  split; [cbn; apply lookup_delete_eq|]. split; [reflexivity|].
  intros evs w'' Hrun.
  eapply (orphan_run p req) in Hrun; [apply Hrun|].
  split; [apply P|]. cbn. intros h0 f0 H0 Hd0.
  apply lookup_delete_Some in H0 as [Hne H0].
  apply Hne. apply (I2 _ _ _ _ Hf H0). congruence.
Qed.

(** ** Replies *)

(** C4: a query with transaction id [txid] is dispatched under the handle
    [next_handle w]; whatever the loop does before that fetch completes,
    the fetch is still outstanding, its completion sends at most one reply,
    and that reply goes to the query's address through the query's server
    and is the converter's output for [txid], whose wire transaction id is
    [txid].  When the converter reports a positive length the reply is
    sent. *)
Theorem reply_carries_query_id opt srv addr txid flags name type
    (w : state) :
  encoder_keeps_id → reachable opt w → 0 <= txid < 65536 →
  let w1 := dns_server_cb srv addr txid flags name type w in
  let h := next_handle w in
  ∀ evs w2,
    forallb (λ ev, negb (completes h ev)) evs = true →
    ev_run w1 evs = Running w2 →
    (∃ f, inflight w2 !! h = Some f) ∧
    (∀ buf calloc_ok w3,
       step w2 (EvComplete h buf calloc_ok) = Running w3 →
       sent w3 = sent w2 ∨
       ∃ body r obuf,
         buf = Some body ∧
         json_to_dns txid (body ++ [x00]) 1500 = (r, obuf) ∧ 0 < r ∧
         sent w3 = sent w2 ++
           [{| r_server := srv; r_addr := addr;
               r_bytes := take (Z.to_nat r) obuf |}] ∧
         wire_tx_id (take (Z.to_nat r) obuf) = Some txid) ∧
    (∀ body r obuf,
       Z.of_nat (length body) + 1 < 2 ^ 32 →
       json_to_dns txid (body ++ [x00]) 1500 = (r, obuf) → 0 < r →
       ∃ w3, step w2 (EvComplete h (Some body) true) = Running w3 ∧
             sent w3 = sent w2 ++
               [{| r_server := srv; r_addr := addr;
                   r_bytes := take (Z.to_nat r) obuf |}]).
Proof.
  intros Hkeep Hr Hid w1 h evs w2 Hnc Hrun.
  assert (P : pending w2 h (fresh (dom (requests w)))
                {| tx_id := txid; raddr := addr; dns_server := srv |}).
  { eapply pending_run; [| |exact Hnc|exact Hrun].
    - apply inv_dns_server_cb. eapply reachable_inv; eauto.
    - apply pending_dns_server_cb. }
  split; [destruct P as [(f & Hf & _) _]; eauto|]. split.
  - intros buf ok w3. rewrite (complete_pending _ _ _ _ _ _ P). intros H.
    apply https_resp_cb_running in H as (_ & _ & _ & _ & _ & _ & Hcase).
    cbn in Hcase.
    destruct Hcase as [(_ & _ & ->) | (body & p & req & -> & [= <-] & Hq & _ & Hs)];
      [now left|].
    destruct P as [_ Hreq]. rewrite Hreq in Hq. injection Hq as <-.
    cbn in Hs. destruct Hs as [->|(r & obuf & Hconv & Hpos & ->)];
      [now left|].
    right. exists body, r, obuf. repeat split; eauto.
  - intros body r obuf Hlen Hconv Hpos.
    rewrite (complete_pending _ _ _ _ _ _ P).
    destruct P as [_ Hreq].
    rewrite (https_resp_cb_body _ _ _ (set_inflight _ _) Hreq Hlen). cbn.
    rewrite Hconv. destruct (Z.leb_spec r 0); [lia|].
    eexists; split; reflexivity.
Qed.

(** The completion of an outstanding fetch whose body the converter
    rejects. *)
Lemma complete_conversion_failure opt h f body (w : state) :
  reachable opt w → inflight w !! h = Some f →
  Z.of_nat (length body) + 1 < 2 ^ 32 →
  ∃ p req,
    f_data f = Some p ∧ requests w !! p = Some req ∧
    ∀ r obuf,
      json_to_dns (tx_id req) (body ++ [x00]) 1500 = (r, obuf) → r <= 0 →
      ∃ w', step w (EvComplete h (Some body) true) = Running w' ∧
            sent w' = sent w ∧
            log w' = log w ++
              [(LOG_DEBUG, "buflen %u\n");
               (LOG_DEBUG, "Received response for id %04x: %.*s");
               (LOG_ERROR, "Failed to decode JSON.")].
Proof.
  intros Hr Hf Hlen.
  destruct (reachable_pending _ _ _ _ Hr Hf) as (p & req & Hd & P).
  exists p, req. split; [exact Hd|]. split; [apply P|].
  intros r obuf Hconv Hneg.
  rewrite (complete_pending _ _ _ _ _ _ P).
  destruct P as [_ Hreq].
  rewrite (https_resp_cb_body _ _ _ (set_inflight _ _) Hreq Hlen). cbn.
  rewrite Hconv. destruct (Z.leb_spec r 0); [|lia].
  eexists; split; [reflexivity|]. split; [reflexivity|].
  cbn. now rewrite <- !app_assoc.
Qed.

(** C6: when an outstanding fetch completes with a body and the converter
    returns a non-positive length, the handler logs the error and returns
    to the loop without sending a reply. *)
Theorem conversion_failure_no_reply opt h f body (w : state) :
  reachable opt w → inflight w !! h = Some f →
  Z.of_nat (length body) + 1 < 2 ^ 32 →
  ∃ p req,
    f_data f = Some p ∧ requests w !! p = Some req ∧
    ∀ r obuf,
      json_to_dns (tx_id req) (body ++ [x00]) 1500 = (r, obuf) → r <= 0 →
      ∃ w', step w (EvComplete h (Some body) true) = Running w' ∧
            sent w' = sent w ∧
            log w' = log w ++
              [(LOG_DEBUG, "buflen %u\n");
               (LOG_DEBUG, "Received response for id %04x: %.*s");
               (LOG_ERROR, "Failed to decode JSON.")].
Proof. apply complete_conversion_failure. Qed.

(** C7 (amended): on an outstanding fetch, a failed dispatch (NULL body)
    and a failed conversion return to the loop, the latter after logging
    the error; but a failed allocation of the body copy terminates the
    process through [FLOG], although the loop is long past start-up. *)
Theorem per_query_failures opt h f (w : state) :
  reachable opt w → inflight w !! h = Some f →
  (∀ calloc_ok,
     ∃ w', step w (EvComplete h None calloc_ok) = Running w' ∧
           sent w' = sent w) ∧
  (∀ body,
     Z.of_nat (length body) + 1 < 2 ^ 32 →
     ∃ p req,
       f_data f = Some p ∧ requests w !! p = Some req ∧
       ∀ r obuf,
         json_to_dns (tx_id req) (body ++ [x00]) 1500 = (r, obuf) → r <= 0 →
         ∃ w', step w (EvComplete h (Some body) true) = Running w' ∧
               sent w' = sent w ∧
               log w' = log w ++
                 [(LOG_DEBUG, "buflen %u\n");
                  (LOG_DEBUG, "Received response for id %04x: %.*s");
                  (LOG_ERROR, "Failed to decode JSON.")]) ∧
  (∀ body,
     ∃ w', step w (EvComplete h (Some body) false) = Fatal w' ∧
           sent w' = sent w ∧
           log w' = log w ++
             [(LOG_DEBUG, "buflen %u\n"); (LOG_FATAL, "calloc")]).
Proof.
  intros Hr Hf. split; [|split].
  - intros ok.
    destruct (null_completion_leaks _ _ _ ok _ Hr Hf)
      as (p & req & w' & _ & _ & Hstep & Hsent & _).
    eauto.
  - intros body Hlen. now apply (complete_conversion_failure opt).
  - intros body.
    destruct (reachable_pending _ _ _ _ Hr Hf) as (p & req & Hd & P).
    rewrite (complete_pending _ _ _ _ _ _ P), https_resp_cb_nomem.
    eexists; split; [reflexivity|]. split; [reflexivity|].
    cbn. now rewrite <- app_assoc.
Qed.

(** ** Ownership of request blocks *)

Lemma startup_is_loop_entry env opt (w0 : state) :
  main_startup env opt = Started w0 → w0 = loop_entry opt.
Proof.
  unfold main_startup.
  destruct (negb _); [discriminate|].
  destruct (_ && _); [discriminate|].
  destruct (_ && _); [discriminate|].
  now intros [= <-].
Qed.


(** X1: two fetches outstanding at the same time have two different live
    request blocks as their contexts. *)
Theorem outstanding_own_distinct_blocks opt h1 h2 f1 f2 (w : state) :
  reachable opt w →
  inflight w !! h1 = Some f1 → inflight w !! h2 = Some f2 → h1 ≠ h2 →
  ∃ p1 p2 r1 r2,
    f_data f1 = Some p1 ∧ f_data f2 = Some p2 ∧ p1 ≠ p2 ∧
    requests w !! p1 = Some r1 ∧ requests w !! p2 = Some r2.
Proof.
  intros Hr H1 H2 Hne. apply reachable_inv in Hr as (I1 & I2 & _).
  destruct (I1 _ _ H1) as (p1 & Hd1 & [r1 Hr1]).
  destruct (I1 _ _ H2) as (p2 & Hd2 & [r2 Hr2]).
  exists p1, p2, r1, r2. repeat split; auto.
  intros ->. apply Hne, (I2 _ _ _ _ H1 H2). congruence.
Qed.

(** X2: an outstanding fetch and its request block stay exactly as they are
    through any events other than the completion of that fetch. *)
Theorem outstanding_until_completed opt h f (evs : list event)
    (w w' : state) :
  reachable opt w → inflight w !! h = Some f →
  forallb (λ ev, negb (completes h ev)) evs = true →
  ev_run w evs = Running w' →
  inflight w' !! h = Some f ∧
  ∃ p req, f_data f = Some p ∧ requests w !! p = Some req ∧
           requests w' !! p = Some req.
Proof.
  intros Hr Hf Hnc Hrun.
  destruct (reachable_pending _ _ _ _ Hr Hf) as (p & req & Hd & P).
  pose proof (reachable_inv _ _ Hr) as I.
  pose proof (pending_run _ _ _ _ _ _ I P Hnc Hrun) as [(f' & Hf' & _) Hreq'].
  split.
  - apply old_handles_run in Hrun as [_ Hold].
    destruct I as (_ & _ & I3). rewrite Hf'. f_equal.
    apply Hold in Hf'; [congruence | eauto].
  - exists p, req. split; [exact Hd|]. split; [apply P | exact Hreq'].
Qed.

Lemma owned_step (w w' : state) (ev : event) :
  inv w →
  (∀ p req, requests w !! p = Some req →
     ∃ h f, inflight w !! h = Some f ∧ f_data f = Some p) →
  null_completion ev = false → step w ev = Running w' →
  ∀ p req, requests w' !! p = Some req →
    ∃ h f, inflight w' !! h = Some f ∧ f_data f = Some p.
Proof.
  intros (I1 & I2 & I3) O Hnull.
  destruct ev as [srv addr txid flags name type|h0 buf ok|a| |]; cbn;
    [| |intros [= <-]; exact O|intros [= <-]; exact O|discriminate].
  - intros [= <-] p req.
    change (requests (dns_server_cb srv addr txid flags name type w))
      with (<[fresh (dom (requests w)) :=
                {| tx_id := txid; raddr := addr; dns_server := srv |}]>
              (requests w)).
    rewrite lookup_insert. case_decide as Hp.
    + intros _. exists (next_handle w). eexists.
      rewrite dns_server_cb_inflight, lookup_insert_eq.
      subst p. split; reflexivity.
    + intros Hreq. destruct (O _ _ Hreq) as (h & f & Hf & Hd).
      exists h, f. split; [|exact Hd].
      rewrite dns_server_cb_inflight, lookup_insert_ne; [exact Hf|].
      apply I3 in Hf. lia.
  - destruct (inflight w !! h0) as [f0|] eqn:Hf0; [|intros [= <-]; exact O].
    intros H.
    apply https_resp_cb_running in H
      as (_ & _ & _ & Hin & _ & _ & Hcase). cbn in Hin, Hcase.
    destruct Hcase as [(-> & _) | (body & p0 & r0 & _ & Hd0 & _ & Hreqs & _)];
      [discriminate Hnull|].
    intros p req. rewrite Hreqs, Hin. intros Hreq.
    apply lookup_delete_Some in Hreq as [Hne Hreq].
    destruct (O _ _ Hreq) as (h & f & Hf & Hd).
    exists h, f. split; [|exact Hd].
    rewrite lookup_delete_ne; [exact Hf|]. intros ->. congruence.
Qed.

(** X3: as long as no fetch has failed (no completion with a NULL body),
    every live request block is the context of an outstanding fetch:
    completions with a body free their block and nothing is leaked. *)
Theorem no_leak_without_failed_fetch env opt (evs : list event)
    (w0 w : state) :
  main_startup env opt = Started w0 →
  forallb (λ ev, negb (null_completion ev)) evs = true →
  ev_run w0 evs = Running w →
  ∀ p req, requests w !! p = Some req →
    ∃ h f, inflight w !! h = Some f ∧ f_data f = Some p.
Proof.
  intros Hs. pose proof (inv_startup _ _ _ Hs) as I.
  assert (O : ∀ p req, requests w0 !! p = Some req →
                ∃ h f, inflight w0 !! h = Some f ∧ f_data f = Some p).
  { apply startup_is_loop_entry in Hs. subst w0. cbn. intros p req.
    now rewrite lookup_empty. }
  clear Hs. revert w0 I O.
  induction evs as [|ev evs IH]; intros w0 I O; cbn.
  - now intros _ [= <-].
  - rewrite andb_true_iff, negb_true_iff. intros [Hev Hevs].
    destruct (step w0 ev) as [w1| | |] eqn:E; try discriminate.
    apply IH; eauto using inv_step, owned_step.
Qed.

(** ** The override list, shutdown and start-up *)

Lemma one_list_step (w w' : state) (ev : event) :
  match resolv (app w) with
  | None => slists w = ∅
  | Some q => ∃ entry, slists w = {[q := [entry]]}
  end →
  step w ev = Running w' →
  match resolv (app w') with
  | None => slists w' = ∅
  | Some q => ∃ entry, slists w' = {[q := [entry]]}
  end.
Proof.
  intros H1 Hstep. destruct (is_poll ev) eqn:Hp.
  - destruct ev; try discriminate. cbn in Hstep. injection Hstep as <-.
    cbn. eexists. f_equal.
    destruct (resolv (app w)) as [q|]; cbn.
    + destruct H1 as [entry ->]. now rewrite delete_singleton_eq.
    + now rewrite H1.
  - destruct (no_poll_step _ _ _ Hp Hstep) as [-> ->]. exact H1.
Qed.

Lemma one_list_reachable opt (w : state) :
  reachable opt w →
  match resolv (app w) with
  | None => slists w = ∅
  | Some q => ∃ entry, slists w = {[q := [entry]]}
  end.
Proof.
  intros (env & w0 & evs & Hs & Hr).
  apply startup_is_loop_entry in Hs. subst w0.
  assert (H0 : match resolv (app (loop_entry opt)) with
               | None => slists (loop_entry opt) = ∅
               | Some q => ∃ entry, slists (loop_entry opt) = {[q := [entry]]}
               end) by reflexivity.
  revert H0 Hr. generalize (loop_entry opt) as w0.
  induction evs as [|ev evs IH]; intros w0 H0; cbn.
  - now intros [= <-].
  - destruct (step w0 ev) as [w1| | |] eqn:E; try discriminate.
    apply IH. eapply one_list_step; eauto.
Qed.


(** X4: the poller never accumulates lists: at any time at most one
    [curl_slist] is live, the one [app.resolv] points to.  On SIGINT [main]
    leaves the loop, frees it and returns 0; request blocks of fetches
    still outstanding are not freed, and no reply is sent for them. *)
Theorem shutdown_frees_override opt (w : state) :
  reachable opt w →
  (size (slists w) <= 1)%nat ∧
  ∃ w', step w EvSigint = Exited 0 w' ∧ slists w' = ∅ ∧
        requests w' = requests w ∧ sent w' = sent w.
Proof.
  intros Hr. apply one_list_reachable in Hr.
  split.
  - destruct (resolv (app w)) as [q|].
    + destruct Hr as [entry ->]. now rewrite map_size_singleton.
    + rewrite Hr, map_size_empty. lia.
  - eexists. split; [reflexivity|]. cbn.
    split; [|split; reflexivity].
    destruct (resolv (app w)) as [q|]; cbn.
    + destruct Hr as [entry ->]. apply delete_singleton_eq.
    + exact Hr.
Qed.

(** X6: throughout the run the extra request arguments are what [main]
    derived from the client-subnet option: empty when the option is empty,
    [&edns_client_subnet=<subnet>] when the subnet has at most 178
    characters, and in every case a prefix of that text of at most 198
    characters. *)
Theorem extra_args_of_subnet opt (w : state) :
  reachable opt w →
  (edns_client_subnet opt = EmptyString →
     extra_request_args (app w) = EmptyString) ∧
  (edns_client_subnet opt ≠ EmptyString →
   (String.length (edns_client_subnet opt) <= 178)%nat →
     extra_request_args (app w)
     = "&edns_client_subnet=" +:+ edns_client_subnet opt) ∧
  (String.length (extra_request_args (app w)) <= 198)%nat ∧
  prefixb (extra_request_args (app w))
    ("&edns_client_subnet=" +:+ edns_client_subnet opt) = true.
Proof.
  intros Hr. apply reachable_static in Hr as [-> _].
  split; [|split; [|split]].
  - unfold edns_args. now intros ->.
  - intros Hne Hlen. unfold edns_args.
    destruct (edns_client_subnet opt) as [|c s] eqn:E; [congruence|].
    apply string_take_all. rewrite string_length_app. cbn in *. lia.
  - apply edns_args_length.
  - unfold edns_args. destruct (edns_client_subnet opt); [reflexivity|].
    apply prefixb_take.
Qed.

(** ** Counting fetches and replies *)

Lemma accounting_step (w w' : state) (ev : event) :
  inv w → step w ev = Running w' →
  length (fetched w')
    = (length (fetched w) + (if is_query ev then 1 else 0))%nat ∧
  (length (sent w') + size (inflight w')
   <= length (sent w) + size (inflight w) + (if is_query ev then 1 else 0))%nat.
Proof.
  intros (I1 & I2 & I3).
  destruct ev as [srv addr txid flags name type|h0 buf ok|a| |]; cbn;
    [| |intros [= <-]; cbn; lia|intros [= <-]; cbn; lia|discriminate].
  - intros [= <-].
    rewrite dns_server_cb_fetched, dns_server_cb_inflight, length_app.
    rewrite map_size_insert_None.
    + cbn. lia.
    + destruct (inflight w !! next_handle w) eqn:E; [|reflexivity].
      apply I3 in E. lia.
  - destruct (inflight w !! h0) as [f0|] eqn:Hf0; [|intros [= <-]; lia].
    intros H.
    apply https_resp_cb_running in H
      as (_ & _ & _ & -> & _ & -> & Hcase). cbn in *.
    assert (Hsize : size (inflight w) = S (size (delete h0 (inflight w)))).
    { rewrite <- (insert_delete_id (inflight w) h0 f0 Hf0) at 1.
      apply map_size_insert_None, lookup_delete_eq. }
    assert (Hsent : (length (sent w') <= S (length (sent w)))%nat).
    { destruct Hcase as [(_ & _ & ->)|(body & p & r & _ & _ & _ & _ & Hs)];
        [lia|].
      destruct Hs as [->|(n & obuf & _ & _ & ->)]; [lia|].
      rewrite length_app. cbn. lia. }
    lia.
Qed.

Lemma accounting_run (evs : list event) (w w' : state) :
  inv w → ev_run w evs = Running w' →
  length (fetched w')
    = (length (fetched w) + length (List.filter is_query evs))%nat ∧
  (length (sent w') + size (inflight w')
   <= length (sent w) + size (inflight w)
      + length (List.filter is_query evs))%nat.
Proof.
  revert w; induction evs as [|ev evs IH]; intros w I; cbn.
  - intros [= <-]. lia.
  - destruct (step w ev) as [w1| | |] eqn:E; try discriminate.
    intros Hrun. destruct (accounting_step _ _ _ I E) as [F1 S1].
    destruct (IH _ (inv_step _ _ _ I E) Hrun) as [F2 S2].
    destruct (is_query ev); cbn [length]; lia.
Qed.

(** X7: the proxy issues exactly one fetch per query received, and every
    fetch gives rise to at most one reply, sent only once the fetch is no
    longer outstanding: replies and outstanding fetches together never
    outnumber the queries. *)
Theorem one_fetch_per_query env opt (evs : list event) (w0 w : state) :
  main_startup env opt = Started w0 → ev_run w0 evs = Running w →
  length (fetched w) = length (List.filter is_query evs) ∧
  (length (sent w) + size (inflight w) <= length (fetched w))%nat.
Proof.
  intros Hs Hrun.
  destruct (accounting_run _ _ _ (inv_startup _ _ _ Hs) Hrun) as [F S].
  apply startup_is_loop_entry in Hs. subst w0. cbn in F, S.
  rewrite map_size_empty in S. lia.
Qed.

(** ** Where replies come from *)

Lemma provenance_step (w w' : state) (ev : event) :
  step w ev = Running w' →
  (∀ p r, requests w' !! p = Some r →
     requests w !! p = Some r ∨ asked [ev] r) ∧
  (∀ rep, rep ∈ sent w' →
     rep ∈ sent w ∨
     ∃ p r body n obuf,
       requests w !! p = Some r ∧
       json_to_dns (tx_id r) (body ++ [x00]) 1500 = (n, obuf) ∧ 0 < n ∧
       rep = {| r_server := dns_server r; r_addr := raddr r;
                r_bytes := take (Z.to_nat n) obuf |}).
Proof.
  destruct ev as [srv addr txid flags name type|h0 buf ok|a| |]; cbn;
    [| |intros [= <-]; split; auto|intros [= <-]; split; auto|discriminate].
  - intros [= <-]. split; [|auto]. intros p r.
    change (requests (dns_server_cb srv addr txid flags name type w))
      with (<[fresh (dom (requests w)) :=
                {| tx_id := txid; raddr := addr; dns_server := srv |}]>
              (requests w)).
    rewrite lookup_insert. case_decide; [|auto].
    intros [= <-]. right. exists flags, name, type. cbn.
    apply list_elem_of_singleton. reflexivity.
  - destruct (inflight w !! h0) as [f0|]; [|intros [= <-]; split; auto].
    intros H.
    apply https_resp_cb_running in H
      as (_ & _ & _ & _ & _ & _ & Hcase). cbn in Hcase.
    destruct Hcase as [(_ & -> & ->)|(body & p0 & r0 & _ & _ & Hr0 & -> & Hs)];
      [split; auto|].
    split.
    + intros p r Hp. apply lookup_delete_Some in Hp as [_ Hp]. auto.
    + intros rep. destruct Hs as [->|(n & obuf & Hconv & Hpos & ->)]; [auto|].
      rewrite elem_of_app, list_elem_of_singleton.
      intros [Hin| ->]; [auto|]. right. exists p0, r0, body, n, obuf. auto.
Qed.

Lemma asked_cons (ev : event) (evs : list event) (r : request_t) :
  asked [ev] r ∨ asked evs r → asked (ev :: evs) r.
Proof.
  intros [(fl & nm & ty & H)|(fl & nm & ty & H)]; exists fl, nm, ty.
  - apply list_elem_of_singleton in H as ->. apply elem_of_cons; auto.
  - apply elem_of_cons; auto.
Qed.

Lemma provenance_run (evs : list event) (w w' : state) :
  ev_run w evs = Running w' →
  (∀ p r, requests w' !! p = Some r →
     (∃ p0, requests w !! p0 = Some r) ∨ asked evs r) ∧
  (∀ rep, rep ∈ sent w' →
     rep ∈ sent w ∨
     ∃ r body n obuf,
       ((∃ p0, requests w !! p0 = Some r) ∨ asked evs r) ∧
       json_to_dns (tx_id r) (body ++ [x00]) 1500 = (n, obuf) ∧ 0 < n ∧
       rep = {| r_server := dns_server r; r_addr := raddr r;
                r_bytes := take (Z.to_nat n) obuf |}).
Proof.
  revert w; induction evs as [|ev evs IH]; intros w; cbn.
  - intros [= <-]. split; eauto.
  - destruct (step w ev) as [w1| | |] eqn:E; try discriminate.
    intros Hrun. destruct (provenance_step _ _ _ E) as [R1 S1].
    destruct (IH _ Hrun) as [R2 S2].
    assert (Q : ∀ r, (∃ p0, requests w1 !! p0 = Some r) ∨ asked evs r →
                     (∃ p0, requests w !! p0 = Some r) ∨ asked (ev :: evs) r).
    { intros r [[p0 H]|H].
      - destruct (R1 _ _ H); eauto using asked_cons.
      - right. apply asked_cons. auto. }
    split.
    + intros p r Hp. apply Q. eauto.
    + intros rep Hrep.
      destruct (S2 _ Hrep) as [H|(r & body & n & obuf & Hq & Hc & Hn & ->)].
      * destruct (S1 _ H) as [?|(p & r & body & n & obuf & Hp & Hc & Hn & ->)];
          [auto|].
        right. exists r, body, n, obuf. eauto 6.
      * right. exists r, body, n, obuf. auto.
Qed.

(** X8: every reply the proxy sends answers a query it received: it goes
    to that query's source address through that query's server handle, and
    its bytes are what the converter produced, with a positive length, for
    that query's transaction id. *)
Theorem every_reply_answers_a_query env opt (evs : list event)
    (w0 w : state) :
  main_startup env opt = Started w0 → ev_run w0 evs = Running w →
  ∀ rep, rep ∈ sent w →
    ∃ srv addr txid flags name type body n obuf,
      EvQuery srv addr txid flags name type ∈ evs ∧
      json_to_dns txid (body ++ [x00]) 1500 = (n, obuf) ∧ 0 < n ∧
      rep = {| r_server := srv; r_addr := addr;
               r_bytes := take (Z.to_nat n) obuf |}.
Proof.
  intros Hs Hrun rep Hrep.
  apply startup_is_loop_entry in Hs. subst w0.
  destruct (provenance_run _ _ _ Hrun) as [_ S].
  destruct (S _ Hrep) as [H|(r & body & n & obuf & Hq & Hc & Hn & ->)].
  - cbn in H. now apply elem_of_nil in H.
  - destruct Hq as [[p0 H]|(fl & nm & ty & H)].
    + cbn in H. now rewrite lookup_empty in H.
    + exists (dns_server r), (raddr r), (tx_id r), fl, nm, ty, body, n, obuf.
      auto.
Qed.

(** ** URLs of DNS-sized names *)

Lemma uint_string_length (d : Decimal.uint) :
  String.length (NilEmpty.string_of_uint d) = Decimal.nb_digits d.
Proof. induction d; cbn; congruence. Qed.

Lemma usize_nb_digits (d : Decimal.uint) :
  Unsigned.usize d = N.of_nat (Decimal.nb_digits d).
Proof.
  induction d; cbn [Unsigned.usize Decimal.nb_digits];
    rewrite ?IHd, ?Nat2N.inj_succ; reflexivity.
Qed.

(** A positive number below [10 ^ k] prints with at most [k] digits. *)
Lemma pos_digits_bound (p : positive) (k : nat) :
  (N.pos p < 10 ^ N.of_nat k)%N →
  (Decimal.nb_digits (Pos.to_uint p) <= k)%nat.
Proof.
  intros Hlt.
  pose proof (Unsigned.of_to p) as Hval.
  pose proof (Unsigned.to_of (Pos.to_uint p)) as Hnorm.
  rewrite Hval in Hnorm.
  change (N.to_uint (N.pos p)) with (Pos.to_uint p) in Hnorm.
  pose proof (Unsigned.to_uint_nonzero p) as Hnz.
  assert (Hhead : ∀ d acc, N.pos (Pos.of_uint_acc d acc) = N.pos p →
                  (S (Decimal.nb_digits d) <= k)%nat).
  { intros d acc Hacc. rewrite Unsigned.of_uint_acc_rev in Hacc.
    assert (Hpow : (10 ^ Unsigned.usize d < 10 ^ N.of_nat k)%N).
    { assert (0 < 10 ^ Unsigned.usize d)%N
        by (apply N.neq_0_lt_0, N.pow_nonzero; lia).
      nia. }
    apply N.pow_lt_mono_r_iff in Hpow; [|lia].
    rewrite usize_nb_digits in Hpow. lia. }
  destruct (Pos.to_uint p) as [|d|d|d|d|d|d|d|d|d|d];
    [discriminate Hval| |eapply Hhead, Hval..].
  exfalso.
  change (Decimal.unorm (Decimal.D0 d)) with (Decimal.unorm d) in Hnorm.
  destruct (Decimal.uint_eq_dec d Decimal.Nil) as [->|Hd]; [now apply Hnz|].
  pose proof (nb_digits_unorm d Hd) as H. rewrite <- Hnorm in H.
  cbn in H. lia.
Qed.

(** [%d] of a 32-bit [int] takes at most 11 characters. *)
Lemma fmt_d_int32_length (n : Z) :
  - 2 ^ 31 <= n < 2 ^ 31 → (String.length (fmt_d n) <= 11)%nat.
Proof.
  intros Hn. unfold fmt_d.
  destruct n as [|p|p]; [cbn; lia| |];
    cbn [Z.to_int NilZero.string_of_int];
    pose proof (pos_digits_bound p 10 ltac:(cbn; lia)) as H;
    pose proof (Unsigned.to_uint_nonnil p) as Hnn;
    (destruct (Pos.to_uint p) eqn:E; [congruence|..]);
    cbn [NilZero.string_of_uint String.length];
    rewrite uint_string_length; lia.
Qed.

Lemma string_drop_app (a b : string) :
  string_drop (String.length a) (a +:+ b) = b.
Proof.
  induction a as [|c a IH]; [now destruct b|].
  rewrite string_app_cons. exact IH.
Qed.

Lemma string_take_while_stop (p : ascii -> bool) (a b : string) (c : ascii) :
  string_forallb p a = true → p c = false →
  string_take_while p (a +:+ String c b) = a.
Proof.
  intros Ha Hc. induction a as [|x a IH].
  - rewrite string_app_nil_l. cbn. now rewrite Hc.
  - cbn in Ha. apply andb_true_iff in Ha as [Hx Ha].
    rewrite string_app_cons. cbn. now rewrite Hx, IH.
Qed.

(** X10: for a name within the 255 characters of a DNS name and any 32-bit
    type the URL is never cut: the fetch is issued with the whole formatted
    text, of at most 1024 characters, whatever the configured subnet. *)
Theorem dns_names_never_truncated opt srv addr txid flags name type
    (w : state) :
  reachable opt w →
  (String.length name <= 255)%nat → - 2 ^ 31 <= type < 2 ^ 31 →
  ∃ f, fetched (dns_server_cb srv addr txid flags name type w)
         = fetched w ++ [f] ∧
       f_url f =
         "https://dns.google.com/resolve?name=" +:+ curl_escape name
         +:+ "&type=" +:+ fmt_d type
         +:+ (if Z.testbit flags 4 then "&cd=true" else "")
         +:+ edns_args opt ∧
       (String.length (f_url f) <= 1024)%nat.
Proof.
  intros Hr Hname Htype. apply reachable_static in Hr as [Hextra _].
  eexists; split; [apply dns_server_cb_fetched|]. cbn [f_url].
  rewrite build_url_cd, Hextra.
  assert (L : (String.length
                 ("https://dns.google.com/resolve?name=" +:+ curl_escape name
                  +:+ "&type=" +:+ fmt_d type
                  +:+ (if Z.testbit flags 4 then "&cd=true" else "")
                  +:+ edns_args opt) <= 1024)%nat).
  { rewrite !string_length_app.
    pose proof (curl_escape_length name).
    pose proof (edns_args_length opt).
    pose proof (fmt_d_int32_length type Htype).
    assert ((String.length (if Z.testbit flags 4 then "&cd=true" else "")
             <= 8)%nat) by (destruct (Z.testbit flags 4); cbn; lia).
    cbn [String.length]. lia. }
  rewrite string_take_all by lia. split; [reflexivity | exact L].
Qed.

(** X11: under the same bounds the name can be read back from the URL:
    the text between [name=] and the next ampersand, percent-decoded, is the
    query name, whatever characters the name contains. *)
Theorem name_recoverable_from_url opt srv addr txid flags name type
    (w : state) :
  reachable opt w →
  (String.length name <= 255)%nat → - 2 ^ 31 <= type < 2 ^ 31 →
  ∃ f, fetched (dns_server_cb srv addr txid flags name type w)
         = fetched w ++ [f] ∧
       name_param (f_url f) = curl_escape name ∧
       percent_decode (name_param (f_url f)) = name.
Proof.
  intros Hr Hname Htype. apply reachable_static in Hr as [Hextra _].
  eexists; split; [apply dns_server_cb_fetched|]. cbn [f_url].
  rewrite build_url_cd, Hextra.
  rewrite string_take_all.
  - unfold name_param.
    change 36%nat
      with (String.length "https://dns.google.com/resolve?name=").
    rewrite string_drop_app.
    change ("&type=" +:+ ?x) with (String "&" ("type=" +:+ x)).
    rewrite (string_take_while_stop not_amp _ _ "&"
               (curl_escape_no_amp name) eq_refl).
    split; [reflexivity | apply percent_decode_escape].
  - rewrite !string_length_app.
    pose proof (curl_escape_length name).
    pose proof (edns_args_length opt).
    pose proof (fmt_d_int32_length type Htype).
    assert ((String.length (if Z.testbit flags 4 then "&cd=true" else "")
             <= 8)%nat) by (destruct (Z.testbit flags 4); cbn; lia).
    cbn [String.length]. lia.
Qed.

(** X12: of a query, only the name, the type and the CD bit reach the URL:
    two queries that agree on these get the same URL in the same state,
    whatever their transaction ids, source addresses, server handles and
    other flag bits. *)
Theorem url_ignores_other_flags srv srv' addr addr' txid txid' flags flags'
    name type (w : state) :
  Z.testbit flags 4 = Z.testbit flags' 4 →
  f_url <$> last (fetched (dns_server_cb srv addr txid flags name type w))
  = f_url <$> last (fetched (dns_server_cb srv' addr' txid' flags' name type w)).
Proof.
  intros Hcd. rewrite !dns_server_cb_fetched, !last_snoc.
  cbn [fmap option_fmap option_map f_url].
  now rewrite !build_url_cd, Hcd.
Qed.

End Proxy.

(** * The theorems at concrete inputs *)

Lemma example_started : main_startup example_env example_opt = Started example_state.
Proof. reflexivity. Qed.

Lemma example_reachable conv (evs : list event) (w : state) :
  ev_run conv example_state evs = Running w → reachable conv example_opt w.
Proof. intros H. exists example_env, example_state, evs. now split. Qed.

Lemma busy_reachable conv : reachable conv example_opt busy_state.
Proof.
  apply (example_reachable conv
           [EvQuery server_handle client 4660 0 "example.com" 1]).
  reflexivity.
Qed.

Lemma busy_inflight : inflight busy_state !! O = Some example_fetch.
Proof. vm_compute. reflexivity. Qed.

Lemma header_only_converter_keeps_id : encoder_keeps_id header_only_converter.
Proof.
  intros id json olen r obuf Hid. unfold header_only_converter.
  destruct json as [|b json]; [intros [= <- <-]; lia|].
  destruct b; try (intros [= <- <-]; lia).
  destruct (12 <=? olen); [|intros [= <- <-]; lia].
  intros [= <- <-] _.
  change (Z.to_nat 12) with 12%nat. cbn [take wire_tx_id]. f_equal.
  assert (B : ∀ z, 0 <= z < 256 → Z.of_N (Byte.to_N (byte_of_Z z)) = z).
  { intros z Hz. unfold byte_of_Z. rewrite Z.mod_small by lia.
    destruct (Byte.of_N (Z.to_N z)) as [b|] eqn:E.
    - apply Byte.to_of_N in E. rewrite E. lia.
    - apply Byte.of_N_None_iff in E. lia. }
  assert (Hlo : byte_of_Z id = byte_of_Z (id mod 256)).
  { unfold byte_of_Z. now rewrite Z.mod_mod by lia. }
  rewrite Hlo, !B.
  - rewrite (Z.div_mod id 256) at 3 by lia. lia.
  - apply Z.mod_pos_bound. lia.
  - split; [apply Z.div_pos; lia | apply Z.div_lt_upper_bound; lia].
Qed.


(** C10 at a name of 1500 characters: the fetch is issued with a URL of
    1498 characters. *)
Example long_name_truncated :
  (String.length ∘ f_url) <$>
    fetched (dns_server_cb server_handle client 4660 16
               (string_repeat "a" 1500) 1 example_state) = [1498%nat].
Proof. vm_compute. reflexivity. Qed.

(** C2 as the specification words it does not hold: with [dns.example.org]
    configured as the DoH server the URL still names dns.google.com. *)
Lemma url_host_not_configured :
  main_startup example_env example_opt = Started example_state ∧
  http_dns_server example_opt = "dns.example.org" ∧
  f_url <$> fetched (dns_server_cb server_handle client 4660 0
                       "example.com" 1 example_state)
    = ["https://dns.google.com/resolve?name=example.com&type=1"] ∧
  prefixb
    (spec_url (http_dns_server example_opt) (curl_escape "example.com") 1)
    "https://dns.google.com/resolve?name=example.com&type=1" = false.
Proof. split; [|split; [|split]]; reflexivity. Qed.

Lemma url_of_query_witness :
  ∃ f, fetched (dns_server_cb server_handle client 4660 16
                  "exa mple.com" 28 example_state)
         = fetched example_state ++ [f] ∧
       f_url f =
         "https://dns.google.com/resolve?name=exa%20mple.com&type=28&cd=true".
Proof.
  destruct (url_of_query header_only_converter example_opt server_handle
              client 4660 16 "exa mple.com" 28 example_state
              (example_reachable header_only_converter [] example_state
                 eq_refl))
    as (f & Hf & Hurl & _).
  exists f. split; [exact Hf | rewrite Hurl; reflexivity].
Defined.

(** C5 as the specification words it does not hold, in either direction:
    a query with the CD bit set and a name of 1500 characters yields a URL
    without [&cd=true], and a query without the bit yields a URL with it
    when the configured subnet string contains it. *)
Lemma cd_param_not_iff_cd_bit :
  (main_startup example_env example_opt = Started example_state ∧
   Z.testbit 16 4 = true ∧
   (containsb "&cd=true" ∘ f_url) <$>
     fetched (dns_server_cb server_handle client 4660 16
                (string_repeat "a" 1500) 1 example_state) = [false]) ∧
  (main_startup example_env subnet_opt = Started (loop_entry subnet_opt) ∧
   Z.testbit 0 4 = false ∧
   f_url <$>
     fetched (dns_server_cb server_handle client 4660 0 "example.com" 1
                (loop_entry subnet_opt))
   = ["https://dns.google.com/resolve?name=example.com&type=1&edns_client_subnet=0.0.0.0/0&cd=true"]).
Proof.
  split; (split; [reflexivity|]); (split; [reflexivity|]);
    vm_compute; reflexivity.
Qed.

Lemma cd_param_iff_cd_bit_witness :
  ∃ f, fetched (dns_server_cb server_handle client 4660 16
                  "example.com" 1 example_state)
         = fetched example_state ++ [f] ∧
       (containsb "&cd=true" (f_url f) = true ↔ Z.testbit 16 4 = true).
Proof.
  apply cd_param_iff_cd_bit; [apply Nat.leb_le|]; vm_compute; reflexivity.
Defined.

Lemma poller_resolves_through_bootstrap_witness :
  ∃ o ls l,
    run_with_poller header_only_converter example_state []
      [PollTimer;
       Other (EvQuery server_handle client 4660 0 "example.com" 1);
       Other (EvPoll google_a); PollTimer] = (o, ls) ∧
    ls !! 1%nat = Some l ∧
    lk_resolver l = Nameserver "8.8.8.8" ∧
    lk_hostname l = "dns.example.org" ∧
    lk_after_first l = 120.
Proof.
  eexists _, _, _. split; [vm_compute; reflexivity|].
  split; [reflexivity|].
  refine (proj1 (poller_resolves_through_bootstrap header_only_converter
                   example_env example_opt
                   [PollTimer;
                    Other (EvQuery server_handle client 4660 0
                             "example.com" 1);
                    Other (EvPoll google_a); PollTimer]
                   example_state _ _ eq_refl _) 1%nat _ _);
    [vm_compute; reflexivity | reflexivity].
Defined.

Lemma no_override_before_first_poll_witness :
  resolv (app busy_state) = None ∧
  Forall (λ f, f_resolv f = None ∧ f_pinned f = None) (fetched busy_state).
Proof.
  apply (no_override_before_first_poll header_only_converter example_env
           example_opt example_state busy_state
           [EvQuery server_handle client 4660 0 "example.com" 1]);
    reflexivity.
Defined.

Lemma reply_carries_query_id_witness :
  ∃ w2 w3,
    ev_run header_only_converter busy_state
      [EvPoll google_a; EvQuery server_handle client 7 0 "b.com" 28]
      = Running w2 ∧
    step header_only_converter w2 (EvComplete O (Some ["{"%byte]) true)
      = Running w3 ∧
    (sent w3 = sent w2 ∨
     ∃ body r obuf,
       Some ["{"%byte] = Some body ∧
       header_only_converter 4660 (body ++ [x00]) 1500 = (r, obuf) ∧ 0 < r ∧
       sent w3 = sent w2 ++
         [{| r_server := server_handle; r_addr := client;
             r_bytes := take (Z.to_nat r) obuf |}] ∧
       wire_tx_id (take (Z.to_nat r) obuf) = Some 4660).
Proof.
  eexists. 
  destruct (reply_carries_query_id header_only_converter example_opt
              server_handle client 4660 0 "example.com" 1 example_state
              header_only_converter_keeps_id
              (example_reachable header_only_converter [] example_state
                 eq_refl)
              ltac:(lia)
              [EvPoll google_a; EvQuery server_handle client 7 0 "b.com" 28]
              _ eq_refl eq_refl)
    as (_ & Hid & Hsent).
  destruct (Hsent ["{"%byte] _ _ eq_refl eq_refl ltac:(lia)) as (w3 & Hstep & _).
  exists w3. split; [reflexivity|]. split; [exact Hstep|].
  exact (Hid _ _ _ Hstep).
Defined.

Lemma conversion_failure_no_reply_witness :
  ∃ w', step header_only_converter busy_state
          (EvComplete O (Some not_json) true) = Running w' ∧
        sent w' = sent busy_state ∧
        log w' = log busy_state ++
          [(LOG_DEBUG, "buflen %u\n");
           (LOG_DEBUG, "Received response for id %04x: %.*s");
           (LOG_ERROR, "Failed to decode JSON.")].
Proof.
  destruct (conversion_failure_no_reply header_only_converter example_opt O
              example_fetch not_json busy_state
              (busy_reachable header_only_converter) busy_inflight eq_refl)
    as (p & req & _ & _ & H).
  apply (H (-1) []); [reflexivity | lia].
Defined.

(** C7 as the specification words it does not hold: with the loop running,
    a completion whose body copy cannot be allocated terminates the
    process. *)
Lemma allocation_failure_is_fatal :
  main_startup example_env example_opt = Started example_state ∧
  ∃ w, ev_run header_only_converter example_state
         [EvQuery server_handle client 4660 0 "example.com" 1;
          EvComplete O (Some ["{"%byte]) false] = Fatal w ∧
       last (log w) = Some (LOG_FATAL, "calloc").
Proof. split; [reflexivity|]. eexists. split; reflexivity. Qed.

Lemma per_query_failures_witness :
  (∃ w', step header_only_converter busy_state (EvComplete O None true)
         = Running w' ∧ sent w' = sent busy_state) ∧
  (∃ w', step header_only_converter busy_state
           (EvComplete O (Some not_json) false) = Fatal w' ∧
         sent w' = sent busy_state ∧
         log w' = log busy_state ++
           [(LOG_DEBUG, "buflen %u\n"); (LOG_FATAL, "calloc")]).
Proof.
  destruct (per_query_failures header_only_converter example_opt O
              example_fetch busy_state
              (busy_reachable header_only_converter) busy_inflight)
    as (Hnull & _ & Hfatal).
  split; [exact (Hnull true) | exact (Hfatal not_json)].
Defined.




(** C1 at a concrete run: after a query and the failed completion of its
    fetch no reply has been sent and no fetch is outstanding, yet the
    request block is still allocated. *)
Theorem null_body_leaks_request :
  main_startup example_env example_opt = Started example_state ∧
  ∃ w, ev_run header_only_converter example_state
         [EvQuery server_handle client 4660 0 "example.com" 1;
          EvComplete O None true] = Running w ∧
       sent w = [] ∧ inflight w = ∅ ∧
       map_to_list (requests w)
         = [(1%positive,
             {| tx_id := 4660; raddr := client;
                dns_server := server_handle |})].
Proof.
  split; [reflexivity|]. eexists. split; [reflexivity|].
  repeat split; vm_compute; reflexivity.
Qed.

(** ** Further properties at concrete inputs *)

Lemma two_reachable conv : reachable conv example_opt two_state.
Proof.
  apply (example_reachable conv
           [EvQuery server_handle client 4660 0 "example.com" 1;
            EvQuery server_handle client 7 0 "b.com" 28]).
  reflexivity.
Qed.

Lemma pinned_reachable conv :
  reachable conv example_opt (dns_poll_cb google_a busy_state).
Proof.
  apply (example_reachable conv
           [EvQuery server_handle client 4660 0 "example.com" 1;
            EvPoll google_a]).
  reflexivity.
Qed.

Lemma subnet_reachable conv : reachable conv subnet_opt (loop_entry subnet_opt).
Proof. exists example_env, (loop_entry subnet_opt), []. now split. Qed.

Lemma outstanding_own_distinct_blocks_witness :
  ∃ p1 p2 r1 r2,
    p1 ≠ p2 ∧ requests two_state !! p1 = Some r1 ∧
    requests two_state !! p2 = Some r2.
Proof.
  destruct (outstanding_own_distinct_blocks header_only_converter example_opt
              0%nat 1%nat _ _ two_state
              (two_reachable header_only_converter) eq_refl eq_refl
              ltac:(discriminate))
    as (p1 & p2 & r1 & r2 & _ & _ & Hne & H1 & H2).
  exists p1, p2, r1, r2. auto.
Defined.

Lemma outstanding_until_completed_witness :
  ∃ w', ev_run header_only_converter busy_state
          [EvPoll google_a; EvQuery server_handle client 7 0 "b.com" 28;
           EvComplete 1 None true] = Running w' ∧
        inflight w' !! O = Some example_fetch.
Proof.
  eexists. split; [vm_compute; reflexivity|].
  refine (proj1 (outstanding_until_completed header_only_converter
                   example_opt O example_fetch
                   [EvPoll google_a;
                    EvQuery server_handle client 7 0 "b.com" 28;
                    EvComplete 1 None true]
                   busy_state _
                   (busy_reachable header_only_converter) busy_inflight
                   _ _)); vm_compute; reflexivity.
Defined.

Lemma no_leak_without_failed_fetch_witness :
  ∃ w, ev_run header_only_converter example_state
         [EvQuery server_handle client 4660 0 "example.com" 1;
          EvQuery server_handle client 7 0 "b.com" 28;
          EvComplete O (Some ["{"%byte]) true] = Running w ∧
       ∀ p req, requests w !! p = Some req →
         ∃ h f, inflight w !! h = Some f ∧ f_data f = Some p.
Proof.
  eexists. split; [vm_compute; reflexivity|].
  refine (no_leak_without_failed_fetch header_only_converter example_env
            example_opt
            [EvQuery server_handle client 4660 0 "example.com" 1;
             EvQuery server_handle client 7 0 "b.com" 28;
             EvComplete O (Some ["{"%byte]) true]
            example_state _ eq_refl _ _); vm_compute; reflexivity.
Defined.

Lemma shutdown_frees_override_witness :
  ∃ w', step header_only_converter (dns_poll_cb google_a busy_state) EvSigint
        = Exited 0 w' ∧
        slists w' = ∅ ∧ requests w' = requests busy_state.
Proof.
  destruct (shutdown_frees_override header_only_converter example_opt _
              (pinned_reachable header_only_converter))
    as (_ & w' & Hstep & Hlists & Hreq & _).
  exists w'. auto.
Defined.

Lemma extra_args_of_subnet_witness :
  extra_request_args (app (loop_entry subnet_opt))
  = "&edns_client_subnet=0.0.0.0/0&cd=true".
Proof.
  destruct (extra_args_of_subnet header_only_converter subnet_opt _
              (subnet_reachable header_only_converter)) as (_ & H & _).
  apply H; [discriminate | apply Nat.leb_le; reflexivity].
Defined.

Lemma one_fetch_per_query_witness :
  ∃ w, ev_run header_only_converter example_state
         [EvQuery server_handle client 4660 0 "example.com" 1;
          EvPoll google_a;
          EvQuery server_handle client 7 0 "b.com" 28;
          EvComplete O (Some ["{"%byte]) true] = Running w ∧
       length (fetched w) = 2%nat ∧
       (length (sent w) + size (inflight w) <= length (fetched w))%nat.
Proof.
  eexists. split; [vm_compute; reflexivity|].
  refine (one_fetch_per_query header_only_converter example_env example_opt
            [EvQuery server_handle client 4660 0 "example.com" 1;
             EvPoll google_a;
             EvQuery server_handle client 7 0 "b.com" 28;
             EvComplete O (Some ["{"%byte]) true]
            example_state _ eq_refl _); vm_compute; reflexivity.
Defined.

Lemma every_reply_answers_a_query_witness :
  ∃ w, ev_run header_only_converter example_state
         [EvQuery server_handle client 4660 0 "example.com" 1;
          EvComplete O (Some ["{"%byte]) true] = Running w ∧
       length (sent w) = 1%nat ∧
       ∀ rep, rep ∈ sent w →
         ∃ srv addr txid flags name type body n obuf,
           EvQuery srv addr txid flags name type
             ∈ [EvQuery server_handle client 4660 0 "example.com" 1;
                EvComplete O (Some ["{"%byte]) true] ∧
           header_only_converter txid (body ++ [x00]) 1500 = (n, obuf) ∧
           0 < n ∧
           rep = {| r_server := srv; r_addr := addr;
                    r_bytes := take (Z.to_nat n) obuf |}.
Proof.
  eexists. split; [vm_compute; reflexivity|]. split; [reflexivity|].
  refine (every_reply_answers_a_query header_only_converter example_env
            example_opt
            [EvQuery server_handle client 4660 0 "example.com" 1;
             EvComplete O (Some ["{"%byte]) true]
            example_state _ eq_refl _); vm_compute; reflexivity.
Defined.

Lemma dns_names_never_truncated_witness :
  ∃ f, fetched (dns_server_cb server_handle client 4660 16
                  "exa mple.com" 28 example_state)
         = fetched example_state ++ [f] ∧
       f_url f =
         "https://dns.google.com/resolve?name=exa%20mple.com&type=28&cd=true" ∧
       (String.length (f_url f) <= 1024)%nat.
Proof.
  exact (dns_names_never_truncated header_only_converter example_opt
           server_handle client 4660 16 "exa mple.com" 28 example_state
           (example_reachable header_only_converter [] example_state eq_refl)
           ltac:(apply Nat.leb_le; reflexivity) ltac:(lia)).
Defined.

Lemma name_recoverable_from_url_witness :
  ∃ f, fetched (dns_server_cb server_handle client 4660 0
                  "a&b=c d.example" 1 example_state)
         = fetched example_state ++ [f] ∧
       name_param (f_url f) = "a%26b%3Dc%20d.example" ∧
       percent_decode (name_param (f_url f)) = "a&b=c d.example".
Proof.
  exact (name_recoverable_from_url header_only_converter example_opt
           server_handle client 4660 0 "a&b=c d.example" 1 example_state
           (example_reachable header_only_converter [] example_state eq_refl)
           ltac:(apply Nat.leb_le; reflexivity) ltac:(lia)).
Defined.

Lemma url_ignores_other_flags_witness :
  f_url <$> last (fetched (dns_server_cb server_handle client 4660 272
                             "example.com" 1 example_state))
  = f_url <$> last (fetched (dns_server_cb 3%positive
                               {| sin_addr := 167772161; sin_port := 53 |}
                               9 32784 "example.com" 1 example_state)).
Proof.
  exact (url_ignores_other_flags server_handle 3%positive client
           {| sin_addr := 167772161; sin_port := 53 |} 4660 9 272 32784
           "example.com" 1 example_state eq_refl).
Defined.
